(** * PAC-LanternAI: the BLS time-series client and the career economic service

    A shallow embedding of
      - backend/src/services/blsClient.ts          (cache, retrying fetch, batching),
      - backend/src/config/blsConfig.ts            (getBLSConfig),
      - backend/src/data/careerBlsMappings.ts      (the career to series table),
      - backend/src/services/careerEconomicService.ts (getJobSpecificEconomicData),
    and the properties of the economic time-series acquisition layer.

    Conventions of the embedding.
      - A JavaScript string is a [string]; the default [Array.prototype.sort]
        compares strings code unit by code unit, which on these strings is
        [String.compare].
      - A JavaScript number that the code uses as an integer (a year, a count,
        a delay in milliseconds, an HTTP status, a timestamp) is a [Z]. A
        number read from text by [parseInt] is the double nearest to the
        digits, so it is rounded beyond 2^53.
      - A [string[]] is an object on a heap ([arrays]), named by its index, so
        that the in-place [sort()] of [getCacheKey] is seen by every holder of
        the reference.
      - [async] functions are functions of the world: the module-level cache,
        the clock read by [Date.now()], the heap of arrays, and the log of
        what went out on the network. A rejected promise or a thrown [Error]
        is [Throw message]. *)

From stdpp Require Import gmap strings list fin_maps sorting pretty.
From Stdlib Require Import ZArith Lia OrdersEx.

Open Scope Z_scope.

(** ** Strings, [sort()] and [join()] *)

(** [a <= b] in the order of the default [sort()] comparator. *)
Definition jsStringLe (a b : string) : Prop := String.leb a b = true.

Global Instance jsStringLe_dec a b : Decision (jsStringLe a b).
Proof. unfold jsStringLe. apply _. Defined.

(** [arr.sort()] on an array of strings (the resulting contents). *)
Definition jsSort (l : list string) : list string := merge_sort jsStringLe l.

(** [arr.join(sep)]. *)
Definition join (sep : string) (l : list string) : string := String.concat sep l.

(** [n.toString()] and [`${n}`] for an integer [n] (in decimal, as JavaScript
    prints integers below 10^21 in magnitude). *)
Definition numberToString (n : Z) : string := pretty n.

(** [s || fallback] for a string [s]: the empty string is falsy. *)
Definition strOr (s fallback : string) : string :=
  if decide (s = "") then fallback else s.

(** ** Data model (blsClient.ts, lines 10-56) *)

Record BLSSeriesData := mkBLSSeriesData {
  year : string;
  period : string;
  periodName : string;
  value : string;
  footnotes : list (string * string);
}.

Record BLSSeries := mkBLSSeries {
  seriesID : string;
  data : list BLSSeriesData;
}.

(** The response envelope. [message] and [Results?.series] may be missing. *)
Record BLSApiResponse := mkBLSApiResponse {
  api_status : string;
  responseTime : Z;
  message : option (list string);
  Results_series : option (list BLSSeries);
}.

(** [Required<BLSClientConfig>]. *)
Record BLSClientConfig := mkBLSClientConfig {
  apiKey : string;
  baseUrl : string;
  enableCache : bool;
  cacheTTL : Z;
  maxRetries : Z;
  retryDelay : Z;
}.

(** [Partial<BLSClientConfig>]: every field may be left out. *)
Record PartialConfig := mkPartialConfig {
  p_apiKey : option string;
  p_baseUrl : option string;
  p_enableCache : option bool;
  p_cacheTTL : option Z;
  p_maxRetries : option Z;
  p_retryDelay : option Z;
}.

Definition noOverrides : PartialConfig :=
  mkPartialConfig None None None None None None.

Record CacheEntry := mkCacheEntry {
  entry_data : list BLSSeries;
  timestamp : Z;
}.

Definition DEFAULT_CONFIG : BLSClientConfig := {|
  apiKey := "";
  baseUrl := "https://api.bls.gov/publicAPI/v2";
  enableCache := true;
  cacheTTL := 3600000;
  maxRetries := 3;
  retryDelay := 1000;
|}.

(** ** The outside world *)

(** The body of an outbound POST, as [JSON.stringify] sees it at the time of
    the call: the contents of the [seriesid] array are copied then. *)
Record Request := mkRequest {
  url : string;
  seriesid : list string;
  startyear : option string;
  endyear : option string;
  registrationkey : option string;
}.

Inductive Result (A : Type) : Type :=
  | Ok (a : A)
  | Throw (msg : string).
Arguments Ok {A} a.
Arguments Throw {A} msg.

(** What [fetch] resolves to: [json] is the outcome of [response.json()]. *)
Record Response := mkResponse {
  status : Z;
  ok : bool;
  statusText : string;
  json : Result BLSApiResponse;
}.

(** [fetch] rejects (a transport-level failure) or resolves to a response. *)
Inductive FetchOutcome :=
  | NetworkError (msg : string)
  | Responded (r : Response).

(** The environment of a run: [process.env], the upstream provider (what the
    n-th call of [fetch] in this process does with the request it is given),
    and how long that call takes. *)
Record Env := mkEnv {
  process_env : gmap string string;
  network : nat → Request → FetchOutcome;
  latency : nat → Z;
  getFullYear : Z → Z;        (* new Date(t).getFullYear(), in the local zone *)
  toISOString : Z → string;   (* new Date(t).toISOString() *)
}.

(** A reference to an array: its index on the heap. *)
Abbreviation loc := nat (only parsing).

Record World := mkWorld {
  arrays : list (list string);      (* the heap of string[] objects *)
  cache : gmap string CacheEntry;   (* const cache = new Map() *)
  clock : Z;                        (* what Date.now() returns *)
  exchanges : list Request;         (* calls of fetchWithRetry, oldest first *)
  attempts : list Request;          (* calls of fetch, oldest first *)
  sleeps : list Z;                  (* arguments of sleep, oldest first *)
}.

Definition set_arrays (f : list (list string) → list (list string)) (w : World) : World :=
  mkWorld (f (arrays w)) (cache w) (clock w) (exchanges w) (attempts w) (sleeps w).
Definition set_cache (f : gmap string CacheEntry → gmap string CacheEntry) (w : World) : World :=
  mkWorld (arrays w) (f (cache w)) (clock w) (exchanges w) (attempts w) (sleeps w).
Definition set_clock (f : Z → Z) (w : World) : World :=
  mkWorld (arrays w) (cache w) (f (clock w)) (exchanges w) (attempts w) (sleeps w).
Definition set_exchanges (f : list Request → list Request) (w : World) : World :=
  mkWorld (arrays w) (cache w) (clock w) (f (exchanges w)) (attempts w) (sleeps w).
Definition set_attempts (f : list Request → list Request) (w : World) : World :=
  mkWorld (arrays w) (cache w) (clock w) (exchanges w) (f (attempts w)) (sleeps w).
Definition set_sleeps (f : list Z → list Z) (w : World) : World :=
  mkWorld (arrays w) (cache w) (clock w) (exchanges w) (attempts w) (f (sleeps w)).

(** A process that has just started: an empty cache, nothing sent yet. *)
Definition freshWorld (heap : list (list string)) (now : Z) : World :=
  mkWorld heap ∅ now [] [] [].

(** ** The monad of the embedding: state and exceptions *)

Definition M (A : Type) : Type := World → Result A * World.

Definition ret {A} (a : A) : M A := fun w => (Ok a, w).
Definition throw {A} (msg : string) : M A := fun w => (Throw msg, w).
Definition bind {A B} (m : M A) (k : A → M B) : M B :=
  fun w => match m w with
           | (Ok a, w1) => k a w1
           | (Throw e, w1) => (Throw e, w1)
           end.
(** [try { m } catch (error) { h error.message }]. *)
Definition tryCatch {A} (m : M A) (h : string → M A) : M A :=
  fun w => match m w with
           | (Ok a, w1) => (Ok a, w1)
           | (Throw e, w1) => h e w1
           end.

Global Instance M_ret : MRet M := @ret.
Global Instance M_bind : MBind M := fun A B k m => bind m k.

(** Primitive operations on the world. *)

Definition dateNow : M Z := fun w => (Ok (clock w), w).

(** Reading an array through its reference. TypeScript's types rule out a
    reference to no array; the model throws there. *)
Definition readArray (l : loc) : M (list string) := fun w =>
  match arrays w !! l with
  | Some ids => (Ok ids, w)
  | None => (Throw "TypeError: not an array", w)
  end.

Definition writeArray (l : loc) (ids : list string) : M unit := fun w =>
  (Ok tt, set_arrays (fun h => <[l := ids]> h) w).

(** An array literal or [slice]: a new object on the heap. *)
Definition allocArray (ids : list string) : M loc := fun w =>
  (Ok (length (arrays w)), set_arrays (fun h => h ++ [ids]) w).

Definition cacheGet (key : string) : M (option CacheEntry) := fun w =>
  (Ok (cache w !! key), w).

Definition cacheSet (key : string) (e : CacheEntry) : M unit := fun w =>
  (Ok tt, set_cache (fun c => <[key := e]> c) w).

(** [sleep(ms)]: the call returns once [ms] milliseconds have passed. *)
Definition sleep (ms : Z) : M unit := fun w =>
  (Ok tt, set_clock (fun t => t + Z.max 0 ms) (set_sleeps (fun s => s ++ [ms]) w)).

(** ** blsClient.ts *)

(** [`${year || 'null'}`]: a missing year and the year 0 are both falsy. *)
Definition yearOrNull (y : option Z) : string :=
  match y with
  | Some n => if decide (n = 0) then "null" else numberToString n
  | None => "null"
  end.

(** The template string of [getCacheKey], given the array as it is after
    [sort()]. *)
Definition cacheKeyOf (sorted : list string) (startYear endYear : option Z) : string :=
  join "," sorted +:+ "_" +:+ yearOrNull startYear +:+ "_" +:+ yearOrNull endYear.

(** The key that [getCacheKey] returns for an array holding [ids]. *)
Definition cacheKey (ids : list string) (startYear endYear : option Z) : string :=
  cacheKeyOf (jsSort ids) startYear endYear.

(** [getCacheKey]: [seriesIds.sort()] sorts the caller's array in place and
    returns that same array, which is then joined. *)
Definition getCacheKey (seriesIds : loc) (startYear endYear : option Z) : M string :=
  ids ← readArray seriesIds;
  writeArray seriesIds (jsSort ids);;
  sorted ← readArray seriesIds;
  mret (cacheKeyOf sorted startYear endYear).

(** [isCacheValid], with the value of [Date.now()] passed in. *)
Definition isCacheValid (entry : CacheEntry) (ttl : Z) (now : Z) : bool :=
  bool_decide (now - timestamp entry < ttl).

(** [process.env.NAME || ''] is truthy. *)
Definition envOrEmpty (env : gmap string string) (name : string) : string :=
  default "" (env !! name).

(** [getConfig]: the spread of the defaults, then the two fields read from the
    environment, then the spread of the overrides. *)
Definition getConfig (env : gmap string string) (overrides : option PartialConfig)
  : BLSClientConfig :=
  let base := {|
    apiKey := envOrEmpty env "BLS_API_KEY";
    baseUrl := baseUrl DEFAULT_CONFIG;
    enableCache := bool_decide (env !! "BLS_CACHE_ENABLED" ≠ Some "false");
    cacheTTL := cacheTTL DEFAULT_CONFIG;
    maxRetries := maxRetries DEFAULT_CONFIG;
    retryDelay := retryDelay DEFAULT_CONFIG;
  |} in
  match overrides with
  | None => base
  | Some o => {|
      apiKey := default (apiKey base) (p_apiKey o);
      baseUrl := default (baseUrl base) (p_baseUrl o);
      enableCache := default (enableCache base) (p_enableCache o);
      cacheTTL := default (cacheTTL base) (p_cacheTTL o);
      maxRetries := default (maxRetries base) (p_maxRetries o);
      retryDelay := default (retryDelay base) (p_retryDelay o);
    |}
  end.

(** [lastError?.message || 'Unknown error']. *)
Definition lastErrorMessage (lastError : option string) : string :=
  match lastError with
  | Some m => strOr m "Unknown error"
  | None => "Unknown error"
  end.

(** The message of the error thrown when the retries are used up. *)
Definition retriesExhausted (config : BLSClientConfig) (lastError : option string) : string :=
  "BLS API request failed after " +:+ numberToString (maxRetries config)
    +:+ " attempts: " +:+ lastErrorMessage lastError.

Section Client.

Context (E : Env).

(** [fetch(url, options)]: the call is logged, time passes, and the provider
    answers or the transport fails. *)
Definition fetch (req : Request) : M Response := fun w =>
  let n := length (attempts w) in
  let w1 := set_clock (fun t => t + latency E n) (set_attempts (fun a => a ++ [req]) w) in
  match network E n req with
  | NetworkError msg => (Throw msg, w1)
  | Responded r => (Ok r, w1)
  end.

(** One iteration of the [for] loop of [fetchWithRetry] ends in [return] or
    goes on to the next iteration ([continue], or the end of the [catch]). *)
Inductive Iteration :=
  | Return (response : Response)
  | Continue (lastError : option string).

(** The body of the loop: the [try] block and its [catch]. *)
Definition retryBody (attempt : Z) (lastError : option string)
    (req : Request) (config : BLSClientConfig) : M Iteration :=
  tryCatch
    (response ← fetch req;
     if decide (status response = 429) then
       let delay := retryDelay config * 2 ^ attempt in
       sleep delay;;
       mret (Continue lastError)
     else mret (Return response))
    (fun error =>
       let delay := retryDelay config * 2 ^ attempt in
       sleep delay;;
       mret (Continue (Some error))).

(** The [for] loop. [remaining] counts the iterations left, which is
    [maxRetries - attempt]; when none is left the error is thrown. *)
Fixpoint retryLoop (remaining : nat) (attempt : Z) (lastError : option string)
    (req : Request) (config : BLSClientConfig) : M Response :=
  match remaining with
  | O => throw (retriesExhausted config lastError)
  | S remaining' =>
      it ← retryBody attempt lastError req config;
      match it with
      | Return response => mret response
      | Continue lastError' =>
          retryLoop remaining' (attempt + 1) lastError' req config
      end
  end.

(** [fetchWithRetry]. The call itself is logged as one exchange. *)
Definition fetchWithRetry (req : Request) (config : BLSClientConfig) : M Response :=
  (fun w => (Ok tt, set_exchanges (fun x => x ++ [req]) w));;
  retryLoop (Z.to_nat (maxRetries config)) 0 None req config.

(** [data.message?.join('; ') || 'Unknown BLS API error']. *)
Definition errorMessages (data : BLSApiResponse) : string :=
  match message data with
  | Some l => strOr (join "; " l) "Unknown BLS API error"
  | None => "Unknown BLS API error"
  end.

(** The request body built by [fetchSeriesData]; [ids] is what the array holds
    when the body is serialized. *)
Definition requestFor (config : BLSClientConfig) (ids : list string)
    (startYear endYear : option Z) : Request := {|
  url := baseUrl config +:+ "/timeseries/data/";
  seriesid := ids;
  startyear := numberToString <$> startYear;
  endyear := numberToString <$> endYear;
  registrationkey := if decide (apiKey config = "") then None else Some (apiKey config);
|}.

(** The cache check at the head of [fetchSeriesData]. *)
Definition cacheLookup (config : BLSClientConfig) (key : string)
  : M (option (list BLSSeries)) :=
  if enableCache config then
    cached ← cacheGet key;
    match cached with
    | Some entry =>
        now ← dateNow;
        if isCacheValid entry (cacheTTL config) now
        then mret (Some (entry_data entry))
        else mret None
    | None => mret None
    end
  else mret None.

(** [fetchSeriesData]. *)
Definition fetchSeriesData (seriesIds : loc) (startYear endYear : option Z)
    (config : option PartialConfig) : M (list BLSSeries) :=
  let fullConfig := getConfig (process_env E) config in
  cacheKey ← getCacheKey seriesIds startYear endYear;
  hit ← cacheLookup fullConfig cacheKey;
  match hit with
  | Some cachedData => mret cachedData
  | None =>
      ids ← readArray seriesIds;
      let requestBody := requestFor fullConfig ids startYear endYear in
      response ← fetchWithRetry requestBody fullConfig;
      if negb (ok response) then
        throw ("BLS API error: " +:+ numberToString (status response)
                 +:+ " " +:+ statusText response)
      else
        match json response with
        | Throw e => throw e
        | Ok data =>
            if decide (api_status data = "REQUEST_SUCCEEDED") then
              let series := default [] (Results_series data) in
              (if enableCache fullConfig then
                 now ← dateNow;
                 cacheSet cacheKey (mkCacheEntry series now)
               else mret tt);;
              mret series
            else throw ("BLS API error: " +:+ errorMessages data)
        end
  end.

(** [series.find(s => s.seriesID === seriesId) || null]. *)
Definition findSeries (seriesId : string) (series : list BLSSeries) : option BLSSeries :=
  List.find (fun s => bool_decide (seriesID s = seriesId)) series.

(** [getSeries]: the one-element array literal is a new array. *)
Definition getSeries (seriesId : string) (startYear endYear : option Z)
    (config : option PartialConfig) : M (option BLSSeries) :=
  one ← allocArray [seriesId];
  series ← fetchSeriesData one startYear endYear config;
  mret (findSeries seriesId series).

(** The Batch Splitter: the slices [seriesIds.slice(i, i + max)] that the loop
    of [getMultipleSeries] takes for [i = 0, max, 2 max, ...] while
    [i < seriesIds.length]. With [max = 0] the source loop never ends; the
    model then runs out of [fuel] and gives [None]. *)
Fixpoint splitFrom (fuel : nat) (seriesIds : list string) (i max : nat)
  : option (list (list string)) :=
  if decide (i < length seriesIds)%nat then
    match fuel with
    | O => None
    | S fuel' =>
        rest ← splitFrom fuel' seriesIds (i + max) max;
        Some (take max (drop i seriesIds) :: rest)
    end
  else Some [].

Definition split (seriesIds : list string) (max : nat) : option (list (list string)) :=
  splitFrom (length seriesIds) seriesIds 0 max.

(** The body of the batch loop, over the slices in order: each slice is a new
    array, fetched on its own, and its results are pushed onto [results]. *)
Fixpoint fetchBatches (batches : list (list string)) (startYear endYear : option Z)
    (config : option PartialConfig) (results : list BLSSeries) : M (list BLSSeries) :=
  match batches with
  | [] => mret results
  | slice :: rest =>
      batch ← allocArray slice;
      batchResults ← fetchSeriesData batch startYear endYear config;
      fetchBatches rest startYear endYear config (results ++ batchResults)
  end.

(** The ceiling on the series of one request. *)
Definition maxSeriesPerRequest (config : BLSClientConfig) : nat :=
  if decide (apiKey config = "") then 25%nat else 50%nat.

(** [getMultipleSeries]. *)
Definition getMultipleSeries (seriesIds : loc) (startYear endYear : option Z)
    (config : option PartialConfig) : M (list BLSSeries) :=
  let fullConfig := getConfig (process_env E) config in
  let max := maxSeriesPerRequest fullConfig in
  ids ← readArray seriesIds;
  if decide (length ids ≤ max)%nat then
    fetchSeriesData seriesIds startYear endYear config
  else
    fetchBatches (default [] (split ids max)) startYear endYear config [].

(** [clearCache], [getCacheSize], [isApiKeyConfigured]. *)
Definition clearCache : M unit := fun w => (Ok tt, set_cache (fun _ => ∅) w).
Definition getCacheSize : M nat := fun w => (Ok (size (cache w)), w).
Definition isApiKeyConfigured : bool :=
  bool_decide (envOrEmpty (process_env E) "BLS_API_KEY" ≠ "").

End Client.

(** ** config/blsConfig.ts *)

(** The white space that [parseInt] skips, among the characters below 256. *)
Definition isWhiteSpace (c : Ascii.ascii) : bool :=
  let n := Ascii.nat_of_ascii c in
  bool_decide (n = 9 ∨ n = 10 ∨ n = 11 ∨ n = 12 ∨ n = 13 ∨ n = 32 ∨ n = 160)%nat.

Fixpoint skipWhiteSpace (s : string) : string :=
  match s with
  | String c rest => if isWhiteSpace c then skipWhiteSpace rest else s
  | EmptyString => s
  end.

Definition digitValue (c : Ascii.ascii) : option Z :=
  let n := Ascii.nat_of_ascii c in
  if decide (48 ≤ n ≤ 57)%nat then Some (Z.of_nat n - 48) else None.

(** The value of the longest prefix of decimal digits; [acc] is [None] until a
    digit has been read. *)
Fixpoint parseDigits (s : string) (acc : option Z) : option Z :=
  match s with
  | String c rest =>
      match digitValue c with
      | Some d => parseDigits rest (Some (10 * default 0 acc + d))
      | None => acc
      end
  | EmptyString => acc
  end.

(** The integer that [parseInt(s, 10)] reads: leading white space skipped, an
    optional sign, then the longest run of decimal digits. [None] when no
    digit is there ([NaN]). This is the algorithm's mathematical integer,
    before it is made a Number. *)
Definition leadingInteger (s : string) : option Z :=
  match skipWhiteSpace s with
  | String c rest =>
      if decide (Ascii.nat_of_ascii c = 45)%nat then Z.opp <$> parseDigits rest None
      else if decide (Ascii.nat_of_ascii c = 43)%nat then parseDigits rest None
      else parseDigits (String c rest) None
  | EmptyString => None
  end.

(** The double nearest to a natural number [m], ties to the even mantissa:
    [m] itself below 2^53, a multiple of [2^(e - 52)] at a binary exponent
    [e] from 53 on. *)
Definition roundToDouble (m : Z) : Z :=
  if decide (m < 2 ^ 53) then m
  else
    let shift := Z.log2 m - 52 in
    let q := m / 2 ^ shift in
    let r := m mod 2 ^ shift in
    let half := 2 ^ (shift - 1) in
    let q' := if decide (r < half) then q
              else if decide (half < r) then q + 1
              else if Z.even q then q else q + 1 in
    q' * 2 ^ shift.

(** The Number that stands for an integer: the nearest double. [None] when
    that is not finite, from 2^1024 on in magnitude. *)
Definition toNumber (z : Z) : option Z :=
  let v := roundToDouble (Z.abs z) in
  if decide (v < 2 ^ 1024) then Some (Z.sgn z * v) else None.

(** [parseInt(s, 10)]. The result is a Number, so the integer read is rounded
    to the nearest double: exact up to 2^53 in magnitude, rounded beyond.
    [None] is a result that is no finite number: [NaN] when no digit is
    there, an infinity when the digits leave the range of a double. *)
Definition parseInt (s : string) : option Z :=
  leadingInteger s ≫= toNumber.

Record BLSConfigSeriesIds := mkBLSConfigSeriesIds {
  cfg_cpi : string;
  cfg_unemployment : string;
  cfg_wages : string;
}.

Record BLSConfigCache := mkBLSConfigCache {
  cache_enabled : bool;
  ttlMs : option Z;
}.

Record BLSConfigRetry := mkBLSConfigRetry {
  maxAttempts : option Z;
  baseDelayMs : option Z;
}.

Record BLSConfig := mkBLSConfig {
  enabled : bool;
  cfg_seriesIds : BLSConfigSeriesIds;
  cfg_cache : BLSConfigCache;
  cfg_retry : BLSConfigRetry;
}.

(** [process.env.NAME || fallback]. *)
Definition envOr (env : gmap string string) (name fallback : string) : string :=
  strOr (envOrEmpty env name) fallback.

(** [getBLSConfig]. *)
Definition getBLSConfig (env : gmap string string) : BLSConfig := {|
  enabled := bool_decide (env !! "BLS_ENABLED" ≠ Some "false");
  cfg_seriesIds := {|
    cfg_cpi := envOr env "BLS_SERIES_CPI" "CUSR0000SA0";
    cfg_unemployment := envOr env "BLS_SERIES_UNEMPLOYMENT" "LNS14000000";
    cfg_wages := envOr env "BLS_SERIES_WAGES" "CES0500000003";
  |};
  cfg_cache := {|
    cache_enabled := bool_decide (env !! "BLS_CACHE_ENABLED" ≠ Some "false");
    ttlMs := parseInt (envOr env "BLS_CACHE_TTL_MS" "3600000");
  |};
  cfg_retry := {|
    maxAttempts := parseInt (envOr env "BLS_RETRY_MAX_ATTEMPTS" "3");
    baseDelayMs := parseInt (envOr env "BLS_RETRY_BASE_DELAY_MS" "1000");
  |};
|}.

(** ** data/careerBlsMappings.ts *)

Record MappingSeriesIds := mkMappingSeriesIds {
  cpi : option string;
  unemployment : option string;
  wages : option string;
}.

Record CareerBlsMapping := mkCareerBlsMapping {
  careerId : string;
  seriesIds : MappingSeriesIds;
}.

Definition CAREER_BLS_MAPPINGS : list CareerBlsMapping := [
  mkCareerBlsMapping "rn-001"
    (mkMappingSeriesIds (Some "CUSR0000SA0") (Some "LNS14000000") (Some "CES0500000003"));
  mkCareerBlsMapping "ma-001"
    (mkMappingSeriesIds (Some "CUSR0000SA0") (Some "LNS14000000") (Some "CES0500000003"));
  mkCareerBlsMapping "elec-001"
    (mkMappingSeriesIds (Some "CUSR0000SA0") (Some "LNS14000000") (Some "CES0500000003"))
].

(** [table.find(m => m.careerId === careerId) || null]. *)
Definition findMapping (table : list CareerBlsMapping) (id : string)
  : option CareerBlsMapping :=
  List.find (fun m => bool_decide (careerId m = id)) table.

Definition getBlsMappingForCareer (id : string) : option CareerBlsMapping :=
  findMapping CAREER_BLS_MAPPINGS id.

(** ** services/careerEconomicService.ts *)

Record JobEconomicIndicator := mkJobEconomicIndicator {
  ind_seriesId : string;
  name : string;
  ind_data : list BLSSeriesData;
  lastUpdated : string;
}.

(** [getSeriesFriendlyName]: a [switch] on the mapping's three series. *)
Definition getSeriesFriendlyName (id : string) (mapping : CareerBlsMapping) : string :=
  if decide (Some id = cpi (seriesIds mapping)) then "Consumer Price Index (CPI)"
  else if decide (Some id = unemployment (seriesIds mapping)) then "Unemployment Rate"
  else if decide (Some id = wages (seriesIds mapping)) then "Average Hourly Earnings"
  else id.

(** [[cpi, unemployment, wages].filter(Boolean)]: a missing identifier and the
    empty string are both dropped. *)
Definition wantedSeriesOf (mapping : CareerBlsMapping) : list string :=
  let ids := seriesIds mapping in
  List.filter (fun s => negb (bool_decide (s = "")))
    (omap id [cpi ids; unemployment ids; wages ids]).

Section Service.

Context (E : Env).
(** The mapping table that [getBlsMappingForCareer] searches. In the
    repository it is [CAREER_BLS_MAPPINGS]; the service is stated over any
    table so that its third early return can be exercised. *)
Context (table : list CareerBlsMapping).

Definition toIndicator (mapping : CareerBlsMapping) (now : Z) (s : BLSSeries)
  : JobEconomicIndicator := {|
  ind_seriesId := seriesID s;
  name := getSeriesFriendlyName (seriesID s) mapping;
  ind_data := data s;
  lastUpdated := toISOString E now;
|}.

(** [getJobSpecificEconomicData]. *)
Definition getJobSpecificEconomicDataIn (id : string) : M (list JobEconomicIndicator) :=
  let config := getBLSConfig (process_env E) in
  if negb (enabled config) then mret []
  else
    match findMapping table id with
    | None => mret []
    | Some mapping =>
        now ← dateNow;
        let currentYear := getFullYear E now in
        let wanted := wantedSeriesOf mapping in
        if decide (length wanted = 0%nat) then mret []
        else
          wantedSeries ← allocArray wanted;
          seriesList ← getMultipleSeries E wantedSeries
                         (Some (currentYear - 5)) (Some currentYear) None;
          now' ← dateNow;
          mret (toIndicator mapping now' <$> seriesList)
    end.

End Service.

(** The service of the repository: over the table of careerBlsMappings.ts. *)
Definition getJobSpecificEconomicData (E : Env) (id : string)
  : M (list JobEconomicIndicator) :=
  getJobSpecificEconomicDataIn E CAREER_BLS_MAPPINGS id.

(** * Vocabulary of the statements *)

(** ** The Backoff Fetcher *)

(** The outcomes that make [fetchWithRetry] try again. *)
Definition retryable (o : FetchOutcome) : Prop :=
  match o with
  | NetworkError _ => True
  | Responded r => status r = 429
  end.

Global Instance retryable_dec o : Decision (retryable o).
Proof. destruct o; simpl; apply _. Defined.

(** The value of [lastError] after a run of outcomes: only a rejected [fetch]
    assigns it. *)
Definition lastThrown (init : option string) (os : list FetchOutcome) : option string :=
  foldl (fun acc o => match o with
                      | NetworkError msg => Some msg
                      | Responded _ => acc
                      end) init os.

(** What the provider does with [req] at the calls of [fetch] numbered
    [start], ..., [start + n - 1]. *)
Definition outcomesAt (E : Env) (start n : nat) (req : Request) : list FetchOutcome :=
  (fun k => network E k req) <$> seq start n.

(** The delays of [n] iterations from iteration [a] on. *)
Definition backoffDelays (config : BLSClientConfig) (a n : nat) : list Z :=
  (fun k => retryDelay config * 2 ^ Z.of_nat k) <$> seq a n.

(** ** The Series Orchestrator *)

(** What the cache check of [fetchSeriesData] finds: the data of a fresh
    entry, if caching is enabled and there is one. *)
Definition freshEntry (cfg : BLSClientConfig) (key : string) (w : World)
  : option (list BLSSeries) :=
  if enableCache cfg then
    match cache w !! key with
    | Some entry =>
        if isCacheValid entry (cacheTTL cfg) (clock w)
        then Some (entry_data entry) else None
    | None => None
    end
  else None.

(** The world after a successful fetch has been cached (or not). *)
Definition stored (cfg : BLSClientConfig) (key : string) (series : list BLSSeries)
    (w : World) : World :=
  if enableCache cfg
  then set_cache (fun c => <[key := mkCacheEntry series (clock w)]> c) w
  else w.

(** The reading of a response in [fetchSeriesData], from [response.ok] on. *)
Definition interpret (cfg : BLSClientConfig) (key : string) (response : Response)
    (w : World) : Result (list BLSSeries) * World :=
  if ok response then
    match json response with
    | Ok data =>
        if decide (api_status data = "REQUEST_SUCCEEDED")
        then (Ok (default [] (Results_series data)),
              stored cfg key (default [] (Results_series data)) w)
        else (Throw ("BLS API error: " +:+ errorMessages data), w)
    | Throw e => (Throw e, w)
    end
  else (Throw ("BLS API error: " +:+ numberToString (status response)
                 +:+ " " +:+ statusText response), w).

(** The path of [fetchSeriesData] after a cache miss. *)
Definition missPath (E : Env) (cfg : BLSClientConfig) (key : string) (ids : list string)
    (startYear endYear : option Z) (w : World) : Result (list BLSSeries) * World :=
  match fetchWithRetry E (requestFor cfg ids startYear endYear) cfg w with
  | (Ok response, w1) => interpret cfg key response w1
  | (Throw e, w1) => (Throw e, w1)
  end.

(** The world that a call leaves when it started without the entry under
    [key]: the same world, except that a call that stored nothing still lacks
    the entry. *)
Definition withoutEntry (key : string) (cfg : BLSClientConfig)
    (res : Result (list BLSSeries)) (w' : World) : World :=
  match res with
  | Ok _ => if enableCache cfg then w' else set_cache (delete key) w'
  | Throw _ => set_cache (delete key) w'
  end.

(** The batches of one call fetched one after the other: [BatchRun bs w rs w']
    says that fetching the slices [bs] in order from world [w] succeeds with
    the per-batch results [rs] (in the same order) and ends in world [w']. *)
Inductive BatchRun (E : Env) (startYear endYear : option Z)
    (ovr : option PartialConfig)
  : list (list string) → World → list (list BLSSeries) → World → Prop :=
  | BatchRun_nil w :
      BatchRun E startYear endYear ovr [] w [] w
  | BatchRun_cons slice rest w r w1 rs w2 :
      fetchSeriesData E (length (arrays w)) startYear endYear ovr
        (set_arrays (fun h => h ++ [slice]) w) = (Ok r, w1) →
      BatchRun E startYear endYear ovr rest w1 rs w2 →
      BatchRun E startYear endYear ovr (slice :: rest) w (r :: rs) w2.

(** ** Providers, transports and inputs for concrete runs *)

(** Providers and transports to run the client against. *)

Definition okResponse (series : list BLSSeries) : Response :=
  mkResponse 200 true "OK"
    (Ok (mkBLSApiResponse "REQUEST_SUCCEEDED" 50 (Some []) (Some series))).

Definition tooManyRequests : Response :=
  mkResponse 429 false "Too Many Requests" (Throw "Unexpected end of JSON input").

Definition testEnv (env : gmap string string)
    (net : nat → Request → FetchOutcome) : Env :=
  mkEnv env net (fun _ => 7) (fun _ => 2024) (fun _ => "2024-06-01T00:00:00.000Z").

(** A provider that answers every request with one empty series per
    identifier asked for, in the order of the request. *)
Definition echoProvider : Env :=
  testEnv ∅ (fun _ req =>
    Responded (okResponse ((fun i => mkBLSSeries i []) <$> seriesid req))).

(** A provider that throttles every request. *)
Definition throttlingProvider : Env :=
  testEnv ∅ (fun _ _ => Responded tooManyRequests).

(** A transport that fails on every call, as in the test of the retries. *)
Definition failingTransport : Env :=
  testEnv ∅ (fun _ _ => NetworkError "Network error").

(** A transport failure on the first call, throttling from then on. *)
Definition failThenThrottle : Env :=
  testEnv ∅ (fun n _ =>
    if decide (n = 0%nat) then NetworkError "socket hang up"
    else Responded tooManyRequests).

(** The answer of the tests: the one series CUSR0000SA0. *)
Definition mockBLSResponse : Response :=
  okResponse [mkBLSSeries "CUSR0000SA0"
    [mkBLSSeriesData "2023" "M12" "December" "306.746" [];
     mkBLSSeriesData "2023" "M11" "November" "307.051" []]].

Definition cpiOnlyProvider : Env :=
  testEnv ∅ (fun _ _ => Responded mockBLSResponse).

(** [{ maxRetries: 2, retryDelay: 10 }]. *)
Definition twoRetries : option PartialConfig :=
  Some (mkPartialConfig None None None None (Some 2) (Some 10)).

(** [n] distinct identifiers, S0, S1, ... *)
Definition someIds (n : nat) : list string :=
  (fun i : nat => "S" +:+ pretty i) <$> seq 0 n.

(** An environment that sets the TTL and the retry settings. *)
Definition tunedEnv : gmap string string :=
  <["BLS_CACHE_TTL_MS" := "5"]>
    (<["BLS_RETRY_MAX_ATTEMPTS" := "7"]>
       (<["BLS_RETRY_BASE_DELAY_MS" := "20"]> ∅)).

Definition tunedEchoProvider : Env :=
  testEnv tunedEnv (network echoProvider).

(** A table with a career whose mapping names no series. *)
Definition sparseTable : list CareerBlsMapping :=
  [mkCareerBlsMapping "blank-001" (mkMappingSeriesIds None (Some "") None)].

(** The first call of [fetch] is throttled, the later ones are answered as in
    the tests. *)
Definition throttledOnce : Env :=
  testEnv ∅ (fun n _ =>
    if decide (n = 0%nat) then Responded tooManyRequests
    else Responded mockBLSResponse).

(** A provider that answers every request with HTTP 500. *)
Definition serverError : Env :=
  testEnv ∅ (fun _ _ =>
    Responded (mkResponse 500 false "Internal Server Error" (Throw "no body"))).

(** A provider whose envelope reports a failure, as in the tests. *)
Definition mockErrorResponse : Response :=
  mkResponse 200 true "OK"
    (Ok (mkBLSApiResponse "REQUEST_FAILED" 10 (Some ["Invalid series ID"]) None)).

Definition rejectingProvider : Env :=
  testEnv ∅ (fun _ _ => Responded mockErrorResponse).

(** A provider that answers the first call of [fetch] like the echoing
    provider and every later one with HTTP 500. *)
Definition failsAfterFirst : Env :=
  testEnv ∅ (fun n req =>
    if decide (n = 0%nat) then network echoProvider n req
    else Responded (mkResponse 500 false "Internal Server Error" (Throw "no body"))).

(** [{ enableCache: false }]. *)
Definition cacheOff : option PartialConfig :=
  Some (mkPartialConfig None None (Some false) None None None).

(** ** Vocabulary of the further properties *)

(** The sum of a list of durations. *)
Definition sumZ (l : list Z) : Z := foldr Z.add 0 l.

(** The world right after a [fetch] of [req] from world [w]. *)
Definition afterFetch (E : Env) (req : Request) (w : World) : World :=
  set_clock (fun t => t + latency E (length (attempts w)))
    (set_attempts (fun a => a ++ [req]) w).

(** [c] occurs in [s]. *)
Fixpoint hasChar (c : Ascii.ascii) (s : string) : bool :=
  match s with
  | EmptyString => false
  | String c' rest => if decide (c' = c) then true else hasChar c rest
  end.

(** A series identifier that [join(',')] keeps apart from its neighbours:
    not empty and without a comma. *)
Definition plainId (s : string) : Prop :=
  s ≠ "" ∧ hasChar (Ascii.ascii_of_nat 44) s = false.

(** An identifier that the key format keeps apart from the rest of the key:
    plain, and without an underscore. *)
Definition keySafeId (s : string) : Prop :=
  plainId s ∧ hasChar (Ascii.ascii_of_nat 95) s = false.

(** A year as the cache key sees it: the year 0 is no year. *)
Definition keyYear (y : option Z) : option Z :=
  match y with
  | Some n => if decide (n = 0) then None else Some n
  | None => None
  end.

(** A string of decimal digits, and the number it spells. *)
Fixpoint allDigits (s : string) : bool :=
  match s with
  | EmptyString => true
  | String c rest => bool_decide (is_Some (digitValue c)) && allDigits rest
  end.

Fixpoint digitsValue (acc : Z) (s : string) : Z :=
  match s with
  | EmptyString => acc
  | String c rest => digitsValue (10 * acc + default 0 (digitValue c)) rest
  end.

(** The id lists that one call of [getMultipleSeries] hands to
    [fetchSeriesData], in order: the whole list when it fits the ceiling, its
    slices otherwise. *)
Definition plannedBatches (cfg : BLSClientConfig) (ids : list string)
  : list (list string) :=
  if decide (length ids ≤ maxSeriesPerRequest cfg)%nat then [ids]
  else default [] (split ids (maxSeriesPerRequest cfg)).

(** A request that the provider accepts from this client: no more series
    than the ceiling, listed in sorted order and taken from the identifiers
    asked for, to the data endpoint, with the year bounds of the call and the
    credential when there is one. *)
Definition wellFormedRequest (cfg : BLSClientConfig) (ids : list string)
    (startYear endYear : option Z) (r : Request) : Prop :=
  (length (seriesid r) ≤ maxSeriesPerRequest cfg)%nat ∧
  Sorted jsStringLe (seriesid r) ∧
  seriesid r ⊆ ids ∧
  url r = baseUrl cfg +:+ "/timeseries/data/" ∧
  startyear r = numberToString <$> startYear ∧
  endyear r = numberToString <$> endYear ∧
  registrationkey r = (if decide (apiKey cfg = "") then None else Some (apiKey cfg)).

(** What follows the first element in [join(sep)] with a one-character
    separator. *)
Definition joinTail (c : Ascii.ascii) (l : list string) : string :=
  match l with
  | [] => ""
  | _ :: _ => String c (join (String c "") l)
  end.

(** What may follow the digits for [parseInt] to stop there. *)
Definition stopsDigits (rest : string) : Prop :=
  match rest with
  | EmptyString => True
  | String c _ => digitValue c = None
  end.

(** The integers that a Number holds exactly whatever their neighbours: the
    safe integers, of magnitude below 2^53. *)
Definition safeInteger (n : Z) : Prop := - 2 ^ 53 < n < 2 ^ 53.

(** A setting that, when given, is a safe integer. *)
Definition safeSetting (v : option Z) : Prop :=
  ∀ n, v = Some n → safeInteger n.

(** * Properties *)

(** ** The order of [sort()] *)

Lemma jsStringLe_compare a b : jsStringLe a b ↔ String.compare a b ≠ Gt.
Proof.
  unfold jsStringLe, String.leb. destruct (String.compare a b); split; congruence.
Qed.

Global Instance jsStringLe_total : Total jsStringLe.
Proof. intros a b. apply String.leb_total. Qed.

Global Instance jsStringLe_antisym : AntiSymm (=) jsStringLe.
Proof. intros a b. apply String.leb_antisym. Qed.

Global Instance jsStringLe_trans : Transitive jsStringLe.
Proof.
  intros a b c Hab Hbc. apply jsStringLe_compare in Hab, Hbc.
  apply jsStringLe_compare.
  destruct (String.compare a b) eqn:Eab; [| |congruence].
  - apply String.compare_eq_iff in Eab. by subst.
  - destruct (String.compare b c) eqn:Ebc; [| |congruence].
    + apply String.compare_eq_iff in Ebc. subst. by rewrite Eab.
    + assert (Hlt : String_as_OT.lt a c).
      { transitivity b; [exact Eab | exact Ebc]. }
      change (String.compare a c = Lt) in Hlt. by rewrite Hlt.
Qed.

Lemma jsSort_Sorted l : Sorted jsStringLe (jsSort l).
Proof. apply Sorted_merge_sort, _. Qed.

Lemma jsSort_Permutation l : jsSort l ≡ₚ l.
Proof. apply merge_sort_Permutation. Qed.

(** The sorted array depends on the multiset of identifiers only. *)
Lemma jsSort_perm l1 l2 : l1 ≡ₚ l2 → jsSort l1 = jsSort l2.
Proof.
  intros Hp. apply (Sorted_unique jsStringLe); try apply jsSort_Sorted.
  by rewrite !jsSort_Permutation.
Qed.

Lemma jsSort_idemp l : jsSort (jsSort l) = jsSort l.
Proof. apply jsSort_perm, jsSort_Permutation. Qed.

Lemma jsSort_length l : length (jsSort l) = length l.
Proof. apply Permutation_length, jsSort_Permutation. Qed.

Lemma jsSort_singleton x : jsSort [x] = [x].
Proof. reflexivity. Qed.

(** ** Running the primitives *)

Ltac run := unfold mbind, M_bind, bind, mret, M_ret, ret, throw, tryCatch; simpl.

Lemma getCacheKey_run l ids startYear endYear w :
  arrays w !! l = Some ids →
  getCacheKey l startYear endYear w
  = (Ok (cacheKey ids startYear endYear),
     set_arrays (fun h => <[l := jsSort ids]> h) w).
Proof.
  intros Hl. unfold getCacheKey, readArray, writeArray. run.
  rewrite Hl. simpl.
  rewrite list_lookup_insert_eq; [done|]. by eapply lookup_lt_Some.
Qed.

(** C5. The cache key is invariant under permutation of the series id list:
    for two arrays holding the same identifiers in any order, and the same
    optional start and end year, [getCacheKey] returns the same string, so
    both requests address the same cache entry. *)
Theorem cache_key_permutation_invariant
    (w1 w2 : World) (l1 l2 : loc) (ids1 ids2 : list string)
    (startYear endYear : option Z) :
  arrays w1 !! l1 = Some ids1 →
  arrays w2 !! l2 = Some ids2 →
  ids1 ≡ₚ ids2 →
  ∃ key,
    (getCacheKey l1 startYear endYear w1).1 = Ok key ∧
    (getCacheKey l2 startYear endYear w2).1 = Ok key ∧
    key = cacheKey ids1 startYear endYear ∧
    ∀ c : gmap string CacheEntry,
      c !! cacheKey ids1 startYear endYear = c !! cacheKey ids2 startYear endYear.
Proof.
  intros H1 H2 Hp.
  assert (Hk : cacheKey ids1 startYear endYear = cacheKey ids2 startYear endYear).
  { unfold cacheKey. by rewrite (jsSort_perm _ _ Hp). }
  exists (cacheKey ids1 startYear endYear).
  rewrite (getCacheKey_run _ _ _ _ _ H1), (getCacheKey_run _ _ _ _ _ H2). simpl.
  rewrite Hk. repeat split; done.
Qed.

(** ['A','B'] and then ['B','A'] with the same year bounds. *)
Lemma cache_key_permutation_invariant_witness :
  ∃ key,
    (getCacheKey 0%nat (Some 2023) (Some 2023)
       (freshWorld [["A"; "B"]] 0)).1 = Ok key ∧
    (getCacheKey 0%nat (Some 2023) (Some 2023)
       (freshWorld [["B"; "A"]] 0)).1 = Ok key ∧
    key = cacheKey ["A"; "B"] (Some 2023) (Some 2023) ∧
    ∀ c : gmap string CacheEntry,
      c !! cacheKey ["A"; "B"] (Some 2023) (Some 2023)
      = c !! cacheKey ["B"; "A"] (Some 2023) (Some 2023).
Proof.
  apply (cache_key_permutation_invariant
           (freshWorld [["A"; "B"]] 0) (freshWorld [["B"; "A"]] 0)
           0%nat 0%nat ["A"; "B"] ["B"; "A"]).
  - reflexivity.
  - reflexivity.
  - apply perm_swap.
Defined.

(** ** The Backoff Fetcher *)

Section Fetcher.

Context (E : Env).

Lemma retryLoop_frame n : ∀ a le req cfg w res w',
  retryLoop E n a le req cfg w = (res, w') →
  arrays w' = arrays w ∧ cache w' = cache w ∧ exchanges w' = exchanges w ∧
  ∃ k, (k ≤ n)%nat ∧ attempts w' = attempts w ++ replicate k req ∧
       ((∀ r, res = Ok r → (1 ≤ k)%nat) ∧ (n ≠ 0%nat → (1 ≤ k)%nat)).
Proof.
  induction n as [|n IH]; intros a le req cfg w res w' Hrun.
  - simpl in Hrun. unfold throw in Hrun. inversion Hrun; subst.
    split_and!; try done. exists 0%nat. simpl. rewrite app_nil_r.
    split_and!; [lia|done|discriminate|done].
  - simpl in Hrun. unfold retryBody, fetch in Hrun. revert Hrun. run.
    destruct (network E (length (attempts w)) req) as [msg|r]; simpl.
    + intros Hrun. apply IH in Hrun as (Ha & Hc & Hx & k & Hk & Hat & Hok).
      simpl in *. split_and!; try done.
      exists (S k). rewrite Hat, <- app_assoc. simpl.
      split_and!; [lia|done|intros; lia|intros; lia].
    + destruct (decide (status r = 429)); simpl.
      * intros Hrun. apply IH in Hrun as (Ha & Hc & Hx & k & Hk & Hat & Hok).
        simpl in *. split_and!; try done.
        exists (S k). rewrite Hat, <- app_assoc. simpl.
        split_and!; [lia|done|intros; lia|intros; lia].
      * intros Hrun. inversion Hrun; subst. simpl. split_and!; try done.
        exists 1%nat. split_and!; [lia|done|intros; lia|intros; lia].
Qed.

Lemma fetchWithRetry_frame req cfg w res w' :
  fetchWithRetry E req cfg w = (res, w') →
  arrays w' = arrays w ∧ cache w' = cache w ∧
  exchanges w' = exchanges w ++ [req] ∧
  ∃ k, (k ≤ Z.to_nat (maxRetries cfg))%nat ∧
       attempts w' = attempts w ++ replicate k req ∧
       ((∀ r, res = Ok r → (1 ≤ k)%nat) ∧ (1 ≤ maxRetries cfg → (1 ≤ k)%nat)).
Proof.
  unfold fetchWithRetry. run. intros Hrun.
  apply retryLoop_frame in Hrun as (Ha & Hc & Hx & k & Hk & Hat & Hok & Hpos).
  simpl in *. split_and!; try done. exists k. split_and!; try done.
  intros. apply Hpos. lia.
Qed.

(** The run of the loop does not look at the cache. *)
Lemma retryLoop_set_cache f n : ∀ a le req cfg w,
  retryLoop E n a le req cfg (set_cache f w)
  = (let '(res, w') := retryLoop E n a le req cfg w in (res, set_cache f w')).
Proof.
  induction n as [|n IH]; intros a le req cfg w; [done|].
  simpl. unfold retryBody, fetch. run.
  pose (w2 := set_clock (fun t => t + Z.max 0 (retryDelay cfg * 2 ^ a))
                (set_sleeps (fun s => s ++ [retryDelay cfg * 2 ^ a])
                   (set_clock (fun t => t + latency E (length (attempts w)))
                      (set_attempts (fun x => x ++ [req]) w)))).
  destruct (network E (length (attempts w)) req) as [msg|r]; simpl.
  - exact (IH (a + 1) (Some msg) req cfg w2).
  - destruct (decide (status r = 429)); simpl; [|done].
    exact (IH (a + 1) le req cfg w2).
Qed.

Lemma fetchWithRetry_set_cache f req cfg w :
  fetchWithRetry E req cfg (set_cache f w)
  = (let '(res, w') := fetchWithRetry E req cfg w in (res, set_cache f w')).
Proof.
  unfold fetchWithRetry. run.
  exact (retryLoop_set_cache f _ 0 None req cfg (set_exchanges (fun x => x ++ [req]) w)).
Qed.

(** When every outcome is retryable the loop runs all its iterations, sleeps
    after each of them and throws. *)
Lemma retryLoop_exhausted req cfg n : ∀ (a : nat) le w,
  Forall retryable (outcomesAt E (length (attempts w)) n req) →
  ∃ w',
    retryLoop E n (Z.of_nat a) le req cfg w
    = (Throw (retriesExhausted cfg
                (lastThrown le (outcomesAt E (length (attempts w)) n req))), w') ∧
    attempts w' = attempts w ++ replicate n req ∧
    sleeps w' = sleeps w ++ backoffDelays cfg a n ∧
    arrays w' = arrays w ∧ cache w' = cache w ∧ exchanges w' = exchanges w.
Proof.
  induction n as [|n IH]; intros a le w Hall.
  - exists w. simpl. unfold throw, backoffDelays. simpl. by rewrite !app_nil_r.
  - unfold outcomesAt in Hall. simpl in Hall. apply Forall_cons in Hall as [Hhd Htl].
    set (w1 := set_clock (fun t => t + latency E (length (attempts w)))
                 (set_attempts (fun x => x ++ [req]) w)).
    set (w2 := set_clock (fun t => t + Z.max 0 (retryDelay cfg * 2 ^ Z.of_nat a))
                 (set_sleeps (fun s => s ++ [retryDelay cfg * 2 ^ Z.of_nat a]) w1)).
    assert (Hlen : length (attempts w2) = S (length (attempts w))).
    { simpl. rewrite length_app. simpl. lia. }
    destruct (IH (S a) (lastThrown le [network E (length (attempts w)) req]) w2)
      as (w' & Hrun & Hat & Hsl & Har & Hca & Hex).
    { by rewrite Hlen. }
    exists w'. rewrite Hlen in Hrun.
    replace (Z.of_nat (S a)) with (Z.of_nat a + 1) in Hrun by lia.
    split_and!.
    + simpl. unfold retryBody, fetch. run. fold w1.
      destruct (network E (length (attempts w)) req) as [msg|r] eqn:Hnet; simpl.
      * fold w2. exact Hrun.
      * simpl in Hhd. destruct (decide (status r = 429)); [|done]. simpl.
        fold w2. exact Hrun.
    + rewrite Hat. simpl. by rewrite <- app_assoc.
    + rewrite Hsl. simpl. unfold backoffDelays. simpl. by rewrite <- app_assoc.
    + by rewrite Har.
    + by rewrite Hca.
    + by rewrite Hex.
Qed.

(** What [fetchWithRetry] does when every attempt has a retryable outcome:
    [maxRetries] attempts, a sleep of [retryDelay * 2^i] after attempt [i],
    and an error that carries the attempt count and the message of the last
    rejected [fetch], or "Unknown error" when no [fetch] was rejected. *)
Lemma fetchWithRetry_exhausted req cfg w :
  let n := Z.to_nat (maxRetries cfg) in
  let outcomes := outcomesAt E (length (attempts w)) n req in
  Forall retryable outcomes →
  ∃ w',
    fetchWithRetry E req cfg w
    = (Throw (retriesExhausted cfg (lastThrown None outcomes)), w') ∧
    attempts w' = attempts w ++ replicate n req ∧
    sleeps w' = sleeps w ++ backoffDelays cfg 0 n ∧
    exchanges w' = exchanges w ++ [req] ∧
    arrays w' = arrays w ∧ cache w' = cache w.
Proof.
  intros n outcomes Hall.
  destruct (retryLoop_exhausted req cfg n 0 None
              (set_exchanges (fun x => x ++ [req]) w) Hall)
    as (w' & Hrun & Hat & Hsl & Har & Hca & Hex).
  exists w'. split; [exact Hrun|]. simpl in Hex. done.
Qed.

End Fetcher.

(** ** The Series Orchestrator *)

Section Orchestrator.

Context (E : Env).

Lemma cacheLookup_run cfg key w :
  cacheLookup cfg key w = (Ok (freshEntry cfg key w), w).
Proof.
  unfold cacheLookup, freshEntry, cacheGet, dateNow.
  destruct (enableCache cfg); [|done]. run.
  destruct (cache w !! key) as [e|]; [|done]. simpl.
  by destruct (isCacheValid e (cacheTTL cfg) (clock w)).
Qed.

Lemma fetchSeriesData_run l ids startYear endYear ovr w :
  arrays w !! l = Some ids →
  let cfg := getConfig (process_env E) ovr in
  let key := cacheKey ids startYear endYear in
  let w0 := set_arrays (fun h => <[l := jsSort ids]> h) w in
  fetchSeriesData E l startYear endYear ovr w
  = match freshEntry cfg key w with
    | Some cachedData => (Ok cachedData, w0)
    | None => missPath E cfg key (jsSort ids) startYear endYear w0
    end.
Proof.
  intros Hl cfg key w0. unfold fetchSeriesData. run.
  rewrite (getCacheKey_run _ _ _ _ _ Hl). fold key w0 cfg.
  rewrite cacheLookup_run.
  replace (freshEntry cfg key w0) with (freshEntry cfg key w) by done.
  destruct (freshEntry cfg key w) as [d|]; [done|].
  unfold readArray. simpl.
  rewrite list_lookup_insert_eq by (by eapply lookup_lt_Some).
  unfold missPath.
  destruct (fetchWithRetry E _ cfg w0) as [[resp|e] w1]; [|done].
  unfold interpret, stored, dateNow, cacheSet.
  destruct (ok resp); simpl; [|done].
  destruct (json resp) as [dat|e]; [|done].
  destruct (decide (api_status dat = "REQUEST_SUCCEEDED")); [|done].
  by destruct (enableCache cfg).
Qed.

(** A successful run of the miss path: one exchange, answered by a response
    that reads as a success, and the world after it. *)
Lemma missPath_ok cfg key ids startYear endYear w r w1 :
  missPath E cfg key ids startYear endYear w = (Ok r, w1) →
  ∃ resp wf dat,
    fetchWithRetry E (requestFor cfg ids startYear endYear) cfg w = (Ok resp, wf) ∧
    ok resp = true ∧ json resp = Ok dat ∧
    api_status dat = "REQUEST_SUCCEEDED" ∧
    r = default [] (Results_series dat) ∧
    w1 = stored cfg key r wf.
Proof.
  unfold missPath.
  destruct (fetchWithRetry E _ cfg w) as [[resp|e] wf]; [|discriminate].
  unfold interpret. destruct (ok resp) eqn:Hok; [|discriminate].
  destruct (json resp) as [dat|e] eqn:Hjson; [|discriminate].
  destruct (decide (api_status dat = "REQUEST_SUCCEEDED")); [|discriminate].
  intros [= <- <-]. by exists resp, wf, dat.
Qed.

(** The frame of [fetchSeriesData]: the caller's array is sorted in place,
    and everything that goes out carries the sorted identifiers. *)
Lemma fetchSeriesData_frame l ids startYear endYear ovr w res w' :
  arrays w !! l = Some ids →
  fetchSeriesData E l startYear endYear ovr w = (res, w') →
  let cfg := getConfig (process_env E) ovr in
  let req := requestFor cfg (jsSort ids) startYear endYear in
  arrays w' = <[l := jsSort ids]> (arrays w) ∧
  ∃ x k, (x ≤ 1)%nat ∧
    exchanges w' = exchanges w ++ replicate x req ∧
    attempts w' = attempts w ++ replicate k req.
Proof.
  intros Hl Hrun cfg req. rewrite (fetchSeriesData_run _ _ _ _ _ _ Hl) in Hrun.
  fold cfg in Hrun.
  destruct (freshEntry cfg _ w) as [d|].
  - inversion Hrun; subst. split; [done|]. exists 0%nat, 0%nat. simpl.
    rewrite !app_nil_r. split_and!; [lia|done|done].
  - unfold missPath in Hrun. fold req in Hrun.
    destruct (fetchWithRetry E req cfg _) as [r0 wf] eqn:Hf.
    apply fetchWithRetry_frame in Hf as (Ha & Hc & Hx & k & Hk & Hat & _).
    simpl in Ha, Hc, Hx, Hat.
    assert (Hw' : arrays w' = arrays wf ∧ exchanges w' = exchanges wf
                  ∧ attempts w' = attempts wf).
    { destruct r0 as [resp|e]; [|by inversion Hrun].
      unfold interpret, stored in Hrun.
      destruct (ok resp); [|by inversion Hrun].
      destruct (json resp) as [dat|e]; [|by inversion Hrun].
      destruct (decide _); [|by inversion Hrun].
      destruct (enableCache cfg); by inversion Hrun. }
    destruct Hw' as (-> & -> & ->). split; [done|].
    exists 1%nat, k. split_and!; [lia|done|done].
Qed.

End Orchestrator.

Section Calls.

Context (E : Env).

Lemma getMultipleSeries_within l ids startYear endYear ovr w :
  arrays w !! l = Some ids →
  (length ids ≤ maxSeriesPerRequest (getConfig (process_env E) ovr))%nat →
  getMultipleSeries E l startYear endYear ovr w
  = fetchSeriesData E l startYear endYear ovr w.
Proof.
  intros Hl Hle. unfold getMultipleSeries, readArray. run. rewrite Hl. simpl.
  by rewrite decide_True.
Qed.

Lemma getMultipleSeries_over l ids startYear endYear ovr w :
  arrays w !! l = Some ids →
  let max := maxSeriesPerRequest (getConfig (process_env E) ovr) in
  ¬ (length ids ≤ max)%nat →
  getMultipleSeries E l startYear endYear ovr w
  = fetchBatches E (default [] (split ids max)) startYear endYear ovr [] w.
Proof.
  intros Hl max Hgt. unfold getMultipleSeries, readArray. run. rewrite Hl. simpl.
  by rewrite decide_False.
Qed.

(** A successful [fetchSeriesData] was either served from a fresh entry or
    went through one exchange whose result was then stored. *)
Lemma fetchSeriesData_ok l ids startYear endYear ovr w r w1 :
  arrays w !! l = Some ids →
  fetchSeriesData E l startYear endYear ovr w = (Ok r, w1) →
  let cfg := getConfig (process_env E) ovr in
  let key := cacheKey ids startYear endYear in
  let w0 := set_arrays (fun h => <[l := jsSort ids]> h) w in
  (freshEntry cfg key w = Some r ∧ w1 = w0) ∨
  (freshEntry cfg key w = None ∧
   ∃ resp wf dat,
     fetchWithRetry E (requestFor cfg (jsSort ids) startYear endYear) cfg w0
       = (Ok resp, wf) ∧
     ok resp = true ∧ json resp = Ok dat ∧
     api_status dat = "REQUEST_SUCCEEDED" ∧
     r = default [] (Results_series dat) ∧
     w1 = stored cfg key r wf).
Proof.
  intros Hl Hrun cfg key w0.
  rewrite (fetchSeriesData_run _ _ _ _ _ _ _ Hl) in Hrun. fold cfg key w0 in Hrun.
  destruct (freshEntry cfg key w) as [d|].
  - left. by inversion Hrun.
  - right. split; [done|]. by apply missPath_ok.
Qed.

Lemma freshEntry_stored cfg key r w1 w2 :
  enableCache cfg = true →
  cache w1 !! key = Some (mkCacheEntry r (clock w1)) →
  cache w2 = cache w1 →
  clock w2 - clock w1 < cacheTTL cfg →
  freshEntry cfg key w2 = Some r.
Proof.
  intros Hen Hc Heq Hlt. unfold freshEntry, isCacheValid.
  rewrite Hen, Heq, Hc. simpl. by rewrite bool_decide_true.
Qed.

(** C2, as the code has it. For a cache-enabled client and a series id list
    no longer than the batch ceiling: when a call of [getMultipleSeries] that
    is not itself served from the cache succeeds, and an identical call (the
    same identifiers in any order, the same year bounds and overrides) follows
    within the cache TTL, the two calls issue exactly one outbound exchange:
    the second finds the fresh entry under the computed key and returns the
    same result without any network access. *)
Theorem repeat_call_within_ceiling_one_exchange
    (l : loc) (ids : list string) (startYear endYear : option Z)
    (ovr : option PartialConfig) (w w1 : World) (r : list BLSSeries)
    (l2 : loc) (ids2 : list string) (w2 : World) :
  let cfg := getConfig (process_env E) ovr in
  let key := cacheKey ids startYear endYear in
  enableCache cfg = true →
  arrays w !! l = Some ids →
  (length ids ≤ maxSeriesPerRequest cfg)%nat →
  freshEntry cfg key w = None →
  getMultipleSeries E l startYear endYear ovr w = (Ok r, w1) →
  arrays w2 !! l2 = Some ids2 →
  ids2 ≡ₚ ids →
  cache w2 = cache w1 →
  exchanges w2 = exchanges w1 →
  attempts w2 = attempts w1 →
  clock w2 - clock w1 < cacheTTL cfg →
  ∃ w3,
    getMultipleSeries E l2 startYear endYear ovr w2 = (Ok r, w3) ∧
    exchanges w3 = exchanges w ++ [requestFor cfg (jsSort ids) startYear endYear] ∧
    attempts w3 = attempts w1 ∧
    cache w3 = cache w1 ∧
    cache w1 !! key = Some (mkCacheEntry r (clock w1)).
Proof.
  intros cfg key Hen Hl Hle Hmiss Hrun Hl2 Hperm Hc Hx Hat Hclock.
  rewrite (getMultipleSeries_within _ _ _ _ _ _ Hl Hle) in Hrun.
  destruct (fetchSeriesData_ok _ _ _ _ _ _ _ _ Hl Hrun)
    as [[Hhit _]|(_ & resp & wf & dat & Hf & _ & _ & _ & _ & Hw1)].
  { fold cfg key in Hhit. congruence. }
  fold cfg key in Hw1, Hf.
  apply fetchWithRetry_frame in Hf as (_ & Hcf & Hxf & _). simpl in Hxf.
  assert (Hstored : cache w1 !! key = Some (mkCacheEntry r (clock w1))).
  { rewrite Hw1. unfold stored. rewrite Hen. simpl. apply lookup_insert_eq. }
  assert (Hx1 : exchanges w1 = exchanges wf).
  { rewrite Hw1. unfold stored. by rewrite Hen. }
  assert (Hlen2 : (length ids2 ≤ maxSeriesPerRequest cfg)%nat).
  { by rewrite (Permutation_length Hperm). }
  rewrite (getMultipleSeries_within _ _ _ _ _ _ Hl2 Hlen2).
  rewrite (fetchSeriesData_run _ _ _ _ _ _ _ Hl2). fold cfg.
  replace (cacheKey ids2 startYear endYear) with key
    by (unfold key, cacheKey; by rewrite (jsSort_perm _ _ Hperm)).
  rewrite (freshEntry_stored cfg key r w1 w2 Hen Hstored Hc Hclock).
  eexists. split; [reflexivity|]. simpl.
  rewrite Hx, Hx1, Hxf. done.
Qed.

(** C3, as the code has it. For a successful [getMultipleSeries] call with
    caching enabled and an id list no longer than the batch ceiling, the
    returned result is in the cache under the key computed from the ids and
    year bounds of the call: stored with the current timestamp when the call
    went to the provider, or the fresh entry that was there already when the
    call was served from the cache. *)
Theorem result_cached_under_call_key_within_ceiling
    (l : loc) (ids : list string) (startYear endYear : option Z)
    (ovr : option PartialConfig) (w w1 : World) (r : list BLSSeries) :
  let cfg := getConfig (process_env E) ovr in
  let key := cacheKey ids startYear endYear in
  enableCache cfg = true →
  arrays w !! l = Some ids →
  (length ids ≤ maxSeriesPerRequest cfg)%nat →
  getMultipleSeries E l startYear endYear ovr w = (Ok r, w1) →
  ∃ entry,
    cache w1 !! key = Some entry ∧ entry_data entry = r ∧
    ((freshEntry cfg key w = None ∧ timestamp entry = clock w1 ∧
      cache w1 = <[key := entry]> (cache w))
     ∨ (freshEntry cfg key w = Some r ∧ cache w1 = cache w ∧
        exchanges w1 = exchanges w ∧
        isCacheValid entry (cacheTTL cfg) (clock w1) = true)).
Proof.
  intros cfg key Hen Hl Hle Hrun.
  rewrite (getMultipleSeries_within _ _ _ _ _ _ Hl Hle) in Hrun.
  destruct (fetchSeriesData_ok _ _ _ _ _ _ _ _ Hl Hrun)
    as [[Hhit Hw1]|(Hmiss & resp & wf & dat & Hf & _ & _ & _ & _ & Hw1)].
  - fold cfg key in Hhit.
    unfold freshEntry in Hhit. rewrite Hen in Hhit.
    destruct (cache w !! key) as [e|] eqn:He; [|discriminate].
    destruct (isCacheValid e (cacheTTL cfg) (clock w)) eqn:Hv; [|discriminate].
    injection Hhit as Hd. exists e. subst w1. simpl.
    split_and!; [done|done|]. right.
    unfold freshEntry. rewrite Hen, He, Hv, Hd. done.
  - fold cfg key in Hmiss, Hf, Hw1.
    apply fetchWithRetry_frame in Hf as (_ & Hcf & _). simpl in Hcf.
    exists (mkCacheEntry r (clock w1)).
    assert (Hc1 : cache w1 = <[key := mkCacheEntry r (clock w1)]> (cache w)).
    { rewrite Hw1. unfold stored. rewrite Hen. simpl. by rewrite Hcf. }
    split_and!; [|done|].
    + rewrite Hc1. apply lookup_insert_eq.
    + left. done.
Qed.

End Calls.

(** ** Lazy expiry *)

Section Expiry.

Context (E : Env).

Lemma freshEntry_stale cfg key w entry :
  cache w !! key = Some entry →
  cacheTTL cfg < clock w - timestamp entry →
  freshEntry cfg key w = None.
Proof.
  intros He Hage. unfold freshEntry, isCacheValid. rewrite He.
  destruct (enableCache cfg); [|done]. rewrite bool_decide_false; [done|lia].
Qed.

Lemma freshEntry_deleted cfg key w :
  freshEntry cfg key (set_cache (delete key) w) = None.
Proof.
  unfold freshEntry. simpl. rewrite lookup_delete_eq. by destruct (enableCache cfg).
Qed.

Lemma missPath_without_entry cfg key ids startYear endYear w :
  missPath E cfg key ids startYear endYear (set_cache (delete key) w)
  = (let '(res, w') := missPath E cfg key ids startYear endYear w in
     (res, withoutEntry key cfg res w')).
Proof.
  unfold missPath. rewrite fetchWithRetry_set_cache.
  destruct (fetchWithRetry E _ cfg w) as [[resp|e] wf]; [|done].
  unfold interpret, stored, withoutEntry.
  destruct (ok resp); [|done].
  destruct (json resp) as [dat|e]; [|done].
  destruct (decide (api_status dat = "REQUEST_SUCCEEDED")); [|done].
  destruct (enableCache cfg); [|done].
  f_equal. unfold set_cache. simpl. f_equal. apply insert_delete_eq.
Qed.

(** C7. Expiry is lazy and depends on the age of the entry alone: when the
    entry under the key of a call is older than [cacheTTL], the cache check
    finds nothing, exactly as it does without the entry, and the call behaves
    as the same call on a cache that does not hold the entry: the same
    outcome, the same exchange with the provider, the same world afterwards.
    So a repeat of a cached call after the TTL has passed fetches again. *)
Theorem stale_entry_behaves_as_absent
    (l : loc) (ids : list string) (startYear endYear : option Z)
    (ovr : option PartialConfig) (w : World) (entry : CacheEntry) :
  let cfg := getConfig (process_env E) ovr in
  let key := cacheKey ids startYear endYear in
  let req := requestFor cfg (jsSort ids) startYear endYear in
  arrays w !! l = Some ids →
  cache w !! key = Some entry →
  cacheTTL cfg < clock w - timestamp entry →
  isCacheValid entry (cacheTTL cfg) (clock w) = false ∧
  cacheLookup cfg key w = (Ok None, w) ∧
  cacheLookup cfg key (set_cache (delete key) w)
    = (Ok None, set_cache (delete key) w) ∧
  ∃ res w',
    fetchSeriesData E l startYear endYear ovr w = (res, w') ∧
    fetchSeriesData E l startYear endYear ovr (set_cache (delete key) w)
      = (res, withoutEntry key cfg res w') ∧
    ((length ids ≤ maxSeriesPerRequest cfg)%nat →
     getMultipleSeries E l startYear endYear ovr w = (res, w')) ∧
    exchanges w' = exchanges w ++ [req] ∧
    (1 ≤ maxRetries cfg →
     ∃ k, (1 ≤ k)%nat ∧ attempts w' = attempts w ++ replicate k req).
Proof.
  intros cfg key req Hl He Hage.
  assert (Hstale := freshEntry_stale cfg key w entry He Hage).
  split_and!.
  - unfold isCacheValid. rewrite bool_decide_false; [done|lia].
  - by rewrite cacheLookup_run, Hstale.
  - by rewrite cacheLookup_run, freshEntry_deleted.
  - assert (Hl' : arrays (set_cache (delete key) w) !! l = Some ids) by done.
    rewrite (fetchSeriesData_run E _ _ _ _ _ _ Hl).
    rewrite (fetchSeriesData_run E _ _ _ _ _ _ Hl').
    fold cfg key. rewrite Hstale, freshEntry_deleted.
    pose (w0 := set_arrays (fun h => <[l := jsSort ids]> h) w).
    change (set_arrays (fun h => <[l := jsSort ids]> h) (set_cache (delete key) w))
      with (set_cache (delete key) w0).
    fold w0. rewrite missPath_without_entry.
    destruct (missPath E cfg key (jsSort ids) startYear endYear w0)
      as [res w'] eqn:Hmiss.
    exists res, w'. split_and!; try done.
    + intros Hle.
      rewrite (getMultipleSeries_within E _ _ _ _ _ _ Hl Hle).
      rewrite (fetchSeriesData_run E _ _ _ _ _ _ Hl).
      fold cfg key w0. by rewrite Hstale.
    + unfold missPath in Hmiss. fold req in Hmiss.
      destruct (fetchWithRetry E req cfg w0) as [r0 wf] eqn:Hf.
      apply fetchWithRetry_frame in Hf as (_ & _ & Hx & _).
      assert (Hxw : exchanges w' = exchanges wf).
      { destruct r0 as [resp|e]; [|by inversion Hmiss].
        unfold interpret, stored in Hmiss.
        destruct (ok resp); [|by inversion Hmiss].
        destruct (json resp) as [dat|e]; [|by inversion Hmiss].
        destruct (decide _); [|by inversion Hmiss].
        destruct (enableCache cfg); by inversion Hmiss. }
      by rewrite Hxw, Hx.
    + intros Hpos. unfold missPath in Hmiss. fold req in Hmiss.
      destruct (fetchWithRetry E req cfg w0) as [r0 wf] eqn:Hf.
      apply fetchWithRetry_frame in Hf as (_ & _ & _ & k & _ & Hat & _ & Hk).
      assert (Haw : attempts w' = attempts wf).
      { destruct r0 as [resp|e]; [|by inversion Hmiss].
        unfold interpret, stored in Hmiss.
        destruct (ok resp); [|by inversion Hmiss].
        destruct (json resp) as [dat|e]; [|by inversion Hmiss].
        destruct (decide _); [|by inversion Hmiss].
        destruct (enableCache cfg); by inversion Hmiss. }
      exists k. split; [by apply Hk|]. by rewrite Haw, Hat.
Qed.

End Expiry.

(** ** Absence is not an error *)

Section Absence.

Context (E : Env).

Lemma findSeries_none id series :
  (∀ s, s ∈ series → seriesID s ≠ id) → findSeries id series = None.
Proof.
  intros Hno. unfold findSeries. induction series as [|s rest IH]; [done|].
  simpl. rewrite bool_decide_false by (apply Hno; left).
  apply IH. intros s' Hs'. apply Hno. by right.
Qed.

Lemma set_arrays_insert_id l ids w :
  arrays w !! l = Some ids →
  set_arrays (fun h => <[l := ids]> h) w = w.
Proof.
  intros Hl. destruct w as [h c t x a s]. unfold set_arrays. simpl in *.
  f_equal. by apply list_insert_id.
Qed.

(** C8. When the request that [getSeries] builds for one identifier is
    answered by the provider with a success that holds no series of that
    identifier, [getSeries] returns [null]: a result, not an error. The
    request lists just that identifier, and the answer is searched for it. *)
Theorem getSeries_absent_when_no_match
    (seriesId : string) (startYear endYear : option Z)
    (ovr : option PartialConfig) (w wf : World)
    (resp : Response) (dat : BLSApiResponse) :
  let cfg := getConfig (process_env E) ovr in
  let key := cacheKey [seriesId] startYear endYear in
  let req := requestFor cfg [seriesId] startYear endYear in
  let w0 := set_arrays (fun h => h ++ [[seriesId]]) w in
  freshEntry cfg key w = None →
  fetchWithRetry E req cfg w0 = (Ok resp, wf) →
  ok resp = true →
  json resp = Ok dat →
  api_status dat = "REQUEST_SUCCEEDED" →
  Forall (fun s => seriesID s ≠ seriesId) (default [] (Results_series dat)) →
  seriesid req = [seriesId] ∧
  getSeries E seriesId startYear endYear ovr w
  = (Ok None, stored cfg key (default [] (Results_series dat)) wf).
Proof.
  intros cfg key req w0 Hmiss Hf Hok Hjson Hst Hno. split; [done|].
  unfold getSeries, allocArray. run. fold w0.
  assert (Hl : arrays w0 !! length (arrays w) = Some [seriesId]).
  { simpl. rewrite lookup_app_r by lia. by rewrite Nat.sub_diag. }
  rewrite (fetchSeriesData_run E _ _ _ _ _ _ Hl). fold cfg key.
  replace (freshEntry cfg key w0) with (freshEntry cfg key w) by done.
  rewrite Hmiss. change (jsSort [seriesId]) with [seriesId].
  rewrite (set_arrays_insert_id _ _ _ Hl).
  unfold missPath. fold req. rewrite Hf.
  unfold interpret. rewrite Hok, Hjson, decide_True by done.
  rewrite findSeries_none; [done|]. by apply Forall_forall.
Qed.

(** Whatever way the series were obtained, [getSeries] answers [null] when
    none of them has the identifier asked for. *)
Lemma getSeries_find seriesId startYear endYear ovr w series w' :
  fetchSeriesData E (length (arrays w)) startYear endYear ovr
    (set_arrays (fun h => h ++ [[seriesId]]) w) = (Ok series, w') →
  getSeries E seriesId startYear endYear ovr w = (Ok (findSeries seriesId series), w').
Proof.
  intros Hrun. unfold getSeries, allocArray. run. by rewrite Hrun.
Qed.

End Absence.

(** ** The Aggregation Service *)

Section Aggregation.

Context (E : Env) (table : list CareerBlsMapping).

(** C9. [getJobSpecificEconomicData] returns the empty list, and leaves the
    world as it was (no exchange, no attempt, no change of the cache), when
    enrichment is disabled, or no mapping is found for the career, or the
    mapping found names no series. None of these throws. *)
Theorem no_enrichment_is_empty_and_silent (id : string) (w : World) :
  enabled (getBLSConfig (process_env E)) = false
  ∨ findMapping table id = None
  ∨ (∃ mapping, findMapping table id = Some mapping ∧ wantedSeriesOf mapping = []) →
  getJobSpecificEconomicDataIn E table id w = (Ok [], w).
Proof.
  intros Hcase. unfold getJobSpecificEconomicDataIn.
  destruct (enabled (getBLSConfig (process_env E))) eqn:Hen; simpl; [|done].
  destruct Hcase as [?|[Hnone|(m & Hm & Hw)]]; [done| |].
  - by rewrite Hnone.
  - rewrite Hm. unfold dateNow. run. rewrite Hw. done.
Qed.

End Aggregation.

(** ** The in-place sort *)

Section InPlaceSort.

Context (E : Env).

(** C10. A call of [getMultipleSeries] with an id list no longer than the
    batch ceiling sorts the caller's array in place while the cache key is
    built: whatever the outcome, the array afterwards holds the same
    identifiers in sorted order, and every request body that went out lists
    them in that sorted order. [getSeries] goes the same way with its
    one-element array, which is its own sorted form. *)
Theorem seriesIds_sorted_in_place
    (l : loc) (ids : list string) (startYear endYear : option Z)
    (ovr : option PartialConfig) (w w' : World) (res : Result (list BLSSeries))
    (seriesId : string) (wS : World) :
  let cfg := getConfig (process_env E) ovr in
  let req := requestFor cfg (jsSort ids) startYear endYear in
  let reqS := requestFor cfg [seriesId] startYear endYear in
  arrays w !! l = Some ids →
  (length ids ≤ maxSeriesPerRequest cfg)%nat →
  getMultipleSeries E l startYear endYear ovr w = (res, w') →
  (arrays w' = <[l := jsSort ids]> (arrays w) ∧
   arrays w' !! l = Some (jsSort ids) ∧
   Sorted jsStringLe (jsSort ids) ∧ jsSort ids ≡ₚ ids ∧
   seriesid req = jsSort ids ∧
   ∃ x k, (x ≤ 1)%nat ∧
     exchanges w' = exchanges w ++ replicate x req ∧
     attempts w' = attempts w ++ replicate k req)
  ∧
  (let wS' := (getSeries E seriesId startYear endYear ovr wS).2 in
   arrays wS' = arrays wS ++ [[seriesId]] ∧
   jsSort [seriesId] = [seriesId] ∧
   ∃ x k, (x ≤ 1)%nat ∧
     exchanges wS' = exchanges wS ++ replicate x reqS ∧
     attempts wS' = attempts wS ++ replicate k reqS).
Proof.
  intros cfg req reqS Hl Hle Hrun. split.
  - rewrite (getMultipleSeries_within E _ _ _ _ _ _ Hl Hle) in Hrun.
    destruct (fetchSeriesData_frame E _ _ _ _ _ _ _ _ Hl Hrun) as (Ha & Hx).
    split_and!; try done.
    + rewrite Ha. apply list_lookup_insert_eq. by eapply lookup_lt_Some.
    + apply jsSort_Sorted.
    + apply jsSort_Permutation.
  - simpl. unfold getSeries, allocArray. run.
    set (w0 := set_arrays (fun h => h ++ [[seriesId]]) wS).
    assert (Hl0 : arrays w0 !! length (arrays wS) = Some [seriesId]).
    { simpl. rewrite lookup_app_r by lia. by rewrite Nat.sub_diag. }
    destruct (fetchSeriesData E (length (arrays wS)) startYear endYear ovr w0)
      as [r1 w1] eqn:Hf.
    destruct (fetchSeriesData_frame E _ _ _ _ _ _ _ _ Hl0 Hf) as (Ha & Hx).
    change (jsSort [seriesId]) with [seriesId] in Ha, Hx.
    rewrite list_insert_id in Ha by done.
    assert (Hw : (match r1 with
                  | Ok a => (Ok (findSeries seriesId a), w1)
                  | Throw e => (Throw e, w1)
                  end).2 = w1) by (by destruct r1).
    rewrite Hw. split_and!; done.
Qed.

End InPlaceSort.

(** ** The Batch Splitter *)

Lemma splitFrom_step fuel ids i max :
  (i < length ids)%nat →
  splitFrom (S fuel) ids i max
  = (rest ← splitFrom fuel ids (i + max) max;
     Some (take max (drop i ids) :: rest)).
Proof. intros Hi. simpl. by rewrite decide_True. Qed.

Lemma splitFrom_done fuel ids i max :
  ¬ (i < length ids)%nat → splitFrom fuel ids i max = Some [].
Proof. intros Hi. destruct fuel; simpl; by rewrite decide_False. Qed.

(** The loop ends when the ceiling is positive, and its slices are the
    consecutive segments of the list from [i] on. *)
Lemma splitFrom_spec ids max :
  (0 < max)%nat →
  ∀ fuel i, (length ids ≤ i + fuel)%nat →
  ∃ batches,
    splitFrom fuel ids i max = Some batches ∧
    concat batches = drop i ids ∧
    Forall (fun b => (0 < length b ≤ max)%nat) batches ∧
    ∀ k b, batches !! k = Some b → b = take max (drop (i + k * max) ids).
Proof.
  intros Hmax. induction fuel as [|fuel IH]; intros i Hfuel.
  - exists []. rewrite splitFrom_done by lia.
    split_and!; [done| |done|done].
    simpl. symmetry. apply drop_ge. lia.
  - destruct (decide (i < length ids)%nat) as [Hi|Hi].
    + destruct (IH (i + max)%nat) as (rest & Hrest & Hcat & Hall & Hk); [lia|].
      exists (take max (drop i ids) :: rest).
      rewrite splitFrom_step by done. rewrite Hrest. simpl.
      split_and!; [done| | |].
      * rewrite Hcat, <- drop_drop. apply take_drop.
      * constructor; [|done]. rewrite length_take, length_drop. lia.
      * intros [|k] b Hb; simpl in Hb.
        -- injection Hb as <-. by rewrite Nat.add_0_r.
        -- apply Hk in Hb. rewrite Hb. do 2 f_equal. lia.
    + exists []. rewrite splitFrom_done by done.
      split_and!; [done| |done|done].
      simpl. symmetry. apply drop_ge. lia.
Qed.

Section Batches.

Context (E : Env).

Lemma fetchBatches_ok startYear endYear ovr batches :
  ∀ results w res w',
  fetchBatches E batches startYear endYear ovr results w = (Ok res, w') →
  ∃ rs,
    BatchRun E startYear endYear ovr batches w rs w' ∧
    length rs = length batches ∧
    res = results ++ concat rs ∧
    arrays w' = arrays w ++ (jsSort <$> batches).
Proof.
  induction batches as [|slice rest IH]; intros results w res w' Hrun.
  - simpl in Hrun. inversion Hrun; subst. exists [].
    split_and!; [constructor|done| |]; simpl; by rewrite app_nil_r.
  - simpl in Hrun. unfold allocArray in Hrun. revert Hrun. run.
    set (w0 := set_arrays (fun h => h ++ [slice]) w).
    assert (Hl0 : arrays w0 !! length (arrays w) = Some slice).
    { simpl. rewrite lookup_app_r by lia. by rewrite Nat.sub_diag. }
    destruct (fetchSeriesData E (length (arrays w)) startYear endYear ovr w0)
      as [[r|e] w1] eqn:Hf; [|discriminate].
    intros Hrun. apply IH in Hrun as (rs & Hrs & Hlen & Hres & Harr).
    destruct (fetchSeriesData_frame E _ _ _ _ _ _ _ _ Hl0 Hf) as (Ha & _).
    exists (r :: rs). split_and!.
    + by econstructor.
    + simpl. by rewrite Hlen.
    + rewrite Hres. simpl. by rewrite <- app_assoc.
    + rewrite Harr, Ha. simpl.
      rewrite insert_app_r_alt by lia. rewrite Nat.sub_diag. simpl.
      by rewrite <- app_assoc.
Qed.

Lemma maxSeriesPerRequest_positive cfg : (0 < maxSeriesPerRequest cfg)%nat.
Proof. unfold maxSeriesPerRequest. case_decide; lia. Qed.

Lemma split_60_25 (ids : list string) :
  length ids = 60%nat →
  split ids 25 = Some [take 25 ids; take 25 (drop 25 ids); take 25 (drop 50 ids)].
Proof.
  intros Hlen. unfold split. rewrite Hlen.
  rewrite splitFrom_step by lia. rewrite splitFrom_step by lia.
  rewrite splitFrom_step by lia. rewrite splitFrom_done by (simpl; lia).
  done.
Qed.

End Batches.

(** C4, as the code has it. For every list of series identifiers and every
    positive batch ceiling, the Batch Splitter ends and yields the
    consecutive slices of the list: each batch is non-empty, no longer than
    the ceiling and a subsequence of the input; the batches follow the input
    order and their concatenation is the input, so every identifier is
    covered exactly once. Sixty identifiers under the ceiling 25 of a client
    without a credential give three batches of 25, 25 and 10. A call of
    [getMultipleSeries] over the ceiling fetches these batches in order and
    returns the concatenation of the per-batch results in batch order. Each
    batch is fetched from an array of its own, which the call leaves sorted,
    the caller's array staying as it was: inside a batch the results answer
    the sorted identifiers, and their order is the provider's. *)
Theorem batch_splitter_partitions (ids : list string) (max : nat) :
  (0 < max)%nat →
  ∃ batches,
    split ids max = Some batches ∧
    concat batches = ids ∧
    Forall (fun b => (0 < length b ≤ max)%nat ∧ b `sublist_of` ids) batches ∧
    (∀ k b, batches !! k = Some b → b = take max (drop (k * max) ids)) ∧
    (length ids = 60%nat → max = 25%nat →
     length <$> batches = [25; 25; 10]%nat) ∧
    (∀ E l startYear endYear ovr w res w',
       arrays w !! l = Some ids →
       max = maxSeriesPerRequest (getConfig (process_env E) ovr) →
       (max < length ids)%nat →
       getMultipleSeries E l startYear endYear ovr w = (Ok res, w') →
       ∃ rs,
         BatchRun E startYear endYear ovr batches w rs w' ∧
         length rs = length batches ∧
         res = concat rs ∧
         arrays w' = arrays w ++ (jsSort <$> batches) ∧
         arrays w' !! l = Some ids).
Proof.
  intros Hmax.
  destruct (splitFrom_spec ids max Hmax (length ids) 0%nat)
    as (batches & Hsplit & Hcat & Hall & Hk); [lia|].
  exists batches. split_and!; try done.
  - apply Forall_forall. intros b Hb.
    split; [by eapply (proj1 (Forall_forall _ _) Hall)|].
    apply list_elem_of_lookup in Hb as [k Hb]. apply Hk in Hb. subst b.
    etrans; [apply sublist_take|apply sublist_drop].
  - intros Hlen ->. unfold split in Hsplit.
    pose proof (split_60_25 ids Hlen) as H60. unfold split in H60.
    rewrite H60 in Hsplit. injection Hsplit as <-. simpl.
    rewrite !length_take, !length_drop, Hlen. done.
  - intros E l startYear endYear ovr w res w' Hl -> Hgt Hrun.
    rewrite (getMultipleSeries_over E _ _ _ _ _ _ Hl) in Hrun by lia.
    unfold split in Hrun. rewrite Hsplit in Hrun. simpl in Hrun.
    apply fetchBatches_ok in Hrun as (rs & Hrs & Hlen & Hres & Harr).
    exists rs. split_and!; try done.
    rewrite Harr. by apply lookup_app_l_Some.
Qed.

(** ** Concrete runs *)

(** C1. Where the code leaves the claim. With [maxRetries = 2] and a provider
    that throttles every attempt, [getSeries] makes 2 attempts, sleeps 10 and
    20 ms, and throws an error that gives the attempt count but names no
    cause ("Unknown error"): the 429 branch never assigns [lastError]. After
    a transport failure followed by throttling the error names the transport
    failure, which is not the last cause. Only when a rejected [fetch] comes
    last, as in the test suite, is the last cause reported. *)
Theorem retries_exhausted_error_misreports_throttling :
  let run E := getSeries E "CUSR0000SA0" (Some 2023) (Some 2023) twoRetries
                 (freshWorld [] 0) in
  ((run throttlingProvider).1
     = Throw "BLS API request failed after 2 attempts: Unknown error" ∧
   length (attempts (run throttlingProvider).2) = 2%nat ∧
   sleeps (run throttlingProvider).2 = [10; 20]) ∧
  ((run failThenThrottle).1
     = Throw "BLS API request failed after 2 attempts: socket hang up" ∧
   length (attempts (run failThenThrottle).2) = 2%nat ∧
   sleeps (run failThenThrottle).2 = [10; 20]) ∧
  ((run failingTransport).1
     = Throw "BLS API request failed after 2 attempts: Network error" ∧
   length (attempts (run failingTransport).2) = 2%nat ∧
   sleeps (run failingTransport).2 = [10; 20]).
Proof. vm_compute. split_and!; reflexivity. Qed.

(** What [getConfig] does with its three sources. The credential and the
    caching flag follow defaults < environment < explicit; the cache TTL, the
    retry ceiling and the retry base delay are the default or the explicit
    override, whatever the environment holds. *)
Lemma getConfig_precedence (env : gmap string string) (ovr : option PartialConfig) :
  let o := default noOverrides ovr in
  apiKey (getConfig env ovr) = default (default "" (env !! "BLS_API_KEY")) (p_apiKey o) ∧
  enableCache (getConfig env ovr)
    = default (bool_decide (env !! "BLS_CACHE_ENABLED" ≠ Some "false")) (p_enableCache o) ∧
  cacheTTL (getConfig env ovr) = default 3600000 (p_cacheTTL o) ∧
  maxRetries (getConfig env ovr) = default 3 (p_maxRetries o) ∧
  retryDelay (getConfig env ovr) = default 1000 (p_retryDelay o) ∧
  baseUrl (getConfig env ovr)
    = default "https://api.bls.gov/publicAPI/v2" (p_baseUrl o).
Proof. destruct ovr as [o|]; simpl; done. Qed.

(** C6. Where the code leaves the claim. With BLS_CACHE_TTL_MS=5,
    BLS_RETRY_MAX_ATTEMPTS=7 and BLS_RETRY_BASE_DELAY_MS=20 in the environment
    and no explicit override, the client still runs with the defaults (TTL
    3600000, 3 attempts, base delay 1000): [getBLSConfig] parses the three
    variables, but nothing hands them to the client. A repeat of a call 10 ms
    after the first, past the TTL of the environment, is served from the
    cache. *)
Theorem environment_ttl_and_retry_settings_not_used_by_client :
  (cacheTTL (getConfig tunedEnv None) = 3600000 ∧
   maxRetries (getConfig tunedEnv None) = 3 ∧
   retryDelay (getConfig tunedEnv None) = 1000) ∧
  (ttlMs (cfg_cache (getBLSConfig tunedEnv)) = Some 5 ∧
   maxAttempts (cfg_retry (getBLSConfig tunedEnv)) = Some 7 ∧
   baseDelayMs (cfg_retry (getBLSConfig tunedEnv)) = Some 20) ∧
  (let first := getMultipleSeries tunedEchoProvider 0%nat (Some 2023) (Some 2023) None
                  (freshWorld [["CUSR0000SA0"]] 0) in
   let second := getMultipleSeries tunedEchoProvider 0%nat (Some 2023) (Some 2023) None
                   (set_clock (fun t => t + 10) first.2) in
   first.1 = Ok [mkBLSSeries "CUSR0000SA0" []] ∧
   second.1 = first.1 ∧
   length (exchanges first.2) = 1%nat ∧
   length (exchanges second.2) = 1%nat).
Proof. vm_compute. split_and!; reflexivity. Qed.

(** C2 as stated fails over the ceiling: 26 identifiers without a credential
    are fetched in two batches, so two identical calls one millisecond apart
    issue two exchanges, not one (both by the first call; the second call is
    served from the two batch entries). *)
Lemma repeat_call_over_ceiling_two_exchanges :
  let cfg := getConfig (process_env echoProvider) None in
  let w := freshWorld [someIds 26] 0 in
  let first := getMultipleSeries echoProvider 0%nat (Some 2023) (Some 2023) None w in
  let w2 := set_clock (fun t => t + 1) first.2 in
  let second := getMultipleSeries echoProvider 0%nat (Some 2023) (Some 2023) None w2 in
  enableCache cfg = true ∧
  (∃ r, first.1 = Ok r ∧ second.1 = Ok r) ∧
  clock w2 - clock first.2 < cacheTTL cfg ∧
  exchanges w = [] ∧
  length (exchanges first.2) = 2%nat ∧
  length (exchanges second.2) = 2%nat ∧
  length (exchanges second.2) ≠ 1%nat.
Proof.
  vm_compute. split_and!; try reflexivity; try discriminate.
  eexists. split; reflexivity.
Qed.

(** C3 as stated fails over the ceiling: after a successful call for 26
    identifiers the cache holds one entry per batch, each under the key of the
    batch, and nothing under the key of the whole list. *)
Lemma over_ceiling_result_not_cached_under_call_key :
  let cfg := getConfig (process_env echoProvider) None in
  let ids := someIds 26 in
  let run := getMultipleSeries echoProvider 0%nat (Some 2023) (Some 2023) None
               (freshWorld [ids] 0) in
  enableCache cfg = true ∧
  (∃ r, run.1 = Ok r ∧ length r = 26%nat) ∧
  cache run.2 !! cacheKey ids (Some 2023) (Some 2023) = None ∧
  size (cache run.2) = 2%nat ∧
  is_Some (cache run.2 !! cacheKey (take 25 ids) (Some 2023) (Some 2023)) ∧
  is_Some (cache run.2 !! cacheKey (drop 25 ids) (Some 2023) (Some 2023)).
Proof.
  vm_compute. split_and!; try reflexivity.
  - eexists. split; reflexivity.
  - eexists. reflexivity.
  - eexists. reflexivity.
Qed.

(** ['B','A'] twice, one millisecond apart, against the echoing provider. *)
Lemma repeat_call_within_ceiling_one_exchange_witness :
  let E := echoProvider in
  let cfg := getConfig (process_env E) None in
  let w := freshWorld [["B"; "A"]] 0 in
  let r := [mkBLSSeries "A" []; mkBLSSeries "B" []] in
  let w1 := (getMultipleSeries E 0%nat (Some 2023) (Some 2023) None w).2 in
  let w2 := set_clock (fun t => t + 1) w1 in
  ∃ w3,
    getMultipleSeries E 0%nat (Some 2023) (Some 2023) None w2 = (Ok r, w3) ∧
    exchanges w3
      = exchanges w ++ [requestFor cfg (jsSort ["B"; "A"]) (Some 2023) (Some 2023)] ∧
    attempts w3 = attempts w1 ∧
    cache w3 = cache w1 ∧
    cache w1 !! cacheKey ["B"; "A"] (Some 2023) (Some 2023)
      = Some (mkCacheEntry r (clock w1)).
Proof.
  intros E cfg w r w1 w2.
  apply (repeat_call_within_ceiling_one_exchange E 0%nat ["B"; "A"]
           (Some 2023) (Some 2023) None w w1 r 0%nat ["A"; "B"] w2).
  - reflexivity.
  - reflexivity.
  - vm_compute. lia.
  - reflexivity.
  - vm_compute. reflexivity.
  - vm_compute. reflexivity.
  - apply perm_swap.
  - reflexivity.
  - reflexivity.
  - reflexivity.
  - vm_compute. reflexivity.
Defined.

Lemma result_cached_under_call_key_within_ceiling_witness :
  let E := echoProvider in
  let cfg := getConfig (process_env E) None in
  let key := cacheKey ["B"; "A"] (Some 2023) (Some 2023) in
  let w := freshWorld [["B"; "A"]] 0 in
  let r := [mkBLSSeries "A" []; mkBLSSeries "B" []] in
  let w1 := (getMultipleSeries E 0%nat (Some 2023) (Some 2023) None w).2 in
  ∃ entry,
    cache w1 !! key = Some entry ∧ entry_data entry = r ∧
    ((freshEntry cfg key w = None ∧ timestamp entry = clock w1 ∧
      cache w1 = <[key := entry]> (cache w))
     ∨ (freshEntry cfg key w = Some r ∧ cache w1 = cache w ∧
        exchanges w1 = exchanges w ∧
        isCacheValid entry (cacheTTL cfg) (clock w1) = true)).
Proof.
  intros E cfg key w r w1.
  apply (result_cached_under_call_key_within_ceiling E 0%nat ["B"; "A"]
           (Some 2023) (Some 2023) None w w1 r).
  - reflexivity.
  - reflexivity.
  - vm_compute. lia.
  - vm_compute. reflexivity.
Defined.

(** Sixty identifiers under the ceiling 25. *)
Lemma batch_splitter_partitions_witness :
  ∃ batches,
    split (someIds 60) 25 = Some batches ∧
    concat batches = someIds 60 ∧
    Forall (fun b => (0 < length b ≤ 25)%nat ∧ b `sublist_of` someIds 60) batches ∧
    (∀ k b, batches !! k = Some b → b = take 25 (drop (k * 25) (someIds 60))) ∧
    (length (someIds 60) = 60%nat → 25%nat = 25%nat →
     length <$> batches = [25; 25; 10]%nat) ∧
    (∀ E l startYear endYear ovr w res w',
       arrays w !! l = Some (someIds 60) →
       25%nat = maxSeriesPerRequest (getConfig (process_env E) ovr) →
       (25 < length (someIds 60))%nat →
       getMultipleSeries E l startYear endYear ovr w = (Ok res, w') →
       ∃ rs,
         BatchRun E startYear endYear ovr batches w rs w' ∧
         length rs = length batches ∧
         res = concat rs ∧
         arrays w' = arrays w ++ (jsSort <$> batches) ∧
         arrays w' !! l = Some (someIds 60)).
Proof.
  apply (batch_splitter_partitions (someIds 60) 25). lia.
Defined.

(** Sixty identifiers against the echoing provider, no credential: three
    requests of 25, 25 and 10 identifiers, sixty series back, and the
    caller's array as it was. *)
Example sixty_ids_three_batches :
  let run := getMultipleSeries echoProvider 0%nat (Some 2023) (Some 2023) None
               (freshWorld [someIds 60] 0) in
  (length ∘ seriesid) <$> exchanges run.2 = [25; 25; 10]%nat ∧
  (∃ r, run.1 = Ok r ∧ length r = 60%nat) ∧
  arrays run.2 !! 0%nat = Some (someIds 60).
Proof.
  vm_compute. split_and!; try reflexivity. eexists. split; reflexivity.
Qed.

(** C4, against the claim as stated. Sixty identifiers S0, S1, ..., S59
    against the provider that answers each request in the order of its
    identifiers, no credential: the call succeeds, but its three requests
    carry the three slices sorted, and the sixty series come back as S0, S1,
    S10, S11, ... where the input has S0, S1, S2, S3, ...: the concatenated
    per-batch results are not in the input order. *)
Lemma batched_results_not_in_input_order :
  let ids := someIds 60 in
  let run := getMultipleSeries echoProvider 0%nat (Some 2023) (Some 2023) None
               (freshWorld [ids] 0) in
  split ids 25 = Some [take 25 ids; take 25 (drop 25 ids); drop 50 ids] ∧
  seriesid <$> exchanges run.2
    = [jsSort (take 25 ids); jsSort (take 25 (drop 25 ids)); jsSort (drop 50 ids)] ∧
  take 4 ids = ["S0"; "S1"; "S2"; "S3"] ∧
  ∃ r, run.1 = Ok r ∧
       length r = 60%nat ∧
       take 4 (seriesID <$> r) = ["S0"; "S1"; "S10"; "S11"] ∧
       seriesID <$> r ≡ₚ ids ∧
       seriesID <$> r ≠ ids.
Proof.
  assert (Hrun : ∃ r,
    (getMultipleSeries echoProvider 0%nat (Some 2023) (Some 2023) None
       (freshWorld [someIds 60] 0)).1 = Ok r ∧
    seriesID <$> r
      = jsSort (take 25 (someIds 60)) ++ jsSort (take 25 (drop 25 (someIds 60)))
        ++ jsSort (drop 50 (someIds 60))).
  { vm_compute. eexists. split; reflexivity. }
  destruct Hrun as (r & Hr & Hids).
  split_and!; [by vm_compute..|].
  exists r. split_and!; [done| | | |].
  - rewrite <- (length_fmap seriesID), Hids. by vm_compute.
  - rewrite Hids. by vm_compute.
  - rewrite Hids, !jsSort_Permutation.
    by rewrite <- (take_drop 25 (drop 25 (someIds 60))), drop_drop, !take_drop.
  - rewrite Hids. vm_compute. discriminate.
Qed.

(** A call for ['B','A'], then the same call 3600002 ms later. *)
Lemma stale_entry_behaves_as_absent_witness :
  let E := echoProvider in
  let cfg := getConfig (process_env E) None in
  let ids := ["A"; "B"] in
  let key := cacheKey ids (Some 2023) (Some 2023) in
  let req := requestFor cfg (jsSort ids) (Some 2023) (Some 2023) in
  let entry := mkCacheEntry [mkBLSSeries "A" []; mkBLSSeries "B" []] 7 in
  let w1 := (getMultipleSeries E 0%nat (Some 2023) (Some 2023) None
               (freshWorld [["B"; "A"]] 0)).2 in
  let w := set_clock (fun t => t + 3600002) w1 in
  isCacheValid entry (cacheTTL cfg) (clock w) = false ∧
  cacheLookup cfg key w = (Ok None, w) ∧
  cacheLookup cfg key (set_cache (delete key) w)
    = (Ok None, set_cache (delete key) w) ∧
  ∃ res w',
    fetchSeriesData E 0%nat (Some 2023) (Some 2023) None w = (res, w') ∧
    fetchSeriesData E 0%nat (Some 2023) (Some 2023) None (set_cache (delete key) w)
      = (res, withoutEntry key cfg res w') ∧
    ((length ids ≤ maxSeriesPerRequest cfg)%nat →
     getMultipleSeries E 0%nat (Some 2023) (Some 2023) None w = (res, w')) ∧
    exchanges w' = exchanges w ++ [req] ∧
    (1 ≤ maxRetries cfg →
     ∃ k, (1 ≤ k)%nat ∧ attempts w' = attempts w ++ replicate k req).
Proof.
  intros E cfg ids key req entry w1 w.
  apply (stale_entry_behaves_as_absent E 0%nat ids (Some 2023) (Some 2023)
           None w entry).
  - vm_compute. reflexivity.
  - vm_compute. reflexivity.
  - vm_compute. reflexivity.
Defined.

(** [getSeries('UNKNOWN_ID', 2023, 2023)] against the answer of the tests. *)
Lemma getSeries_absent_when_no_match_witness :
  let E := cpiOnlyProvider in
  let cfg := getConfig (process_env E) None in
  let key := cacheKey ["UNKNOWN_ID"] (Some 2023) (Some 2023) in
  let req := requestFor cfg ["UNKNOWN_ID"] (Some 2023) (Some 2023) in
  let w := freshWorld [] 0 in
  let w0 := set_arrays (fun h => h ++ [["UNKNOWN_ID"]]) w in
  let wf := (fetchWithRetry E req cfg w0).2 in
  let series := [mkBLSSeries "CUSR0000SA0"
                   [mkBLSSeriesData "2023" "M12" "December" "306.746" [];
                    mkBLSSeriesData "2023" "M11" "November" "307.051" []]] in
  seriesid req = ["UNKNOWN_ID"] ∧
  getSeries E "UNKNOWN_ID" (Some 2023) (Some 2023) None w
  = (Ok None, stored cfg key series wf).
Proof.
  intros E cfg key req w w0 wf series.
  apply (getSeries_absent_when_no_match E "UNKNOWN_ID" (Some 2023) (Some 2023)
           None w wf mockBLSResponse
           (mkBLSApiResponse "REQUEST_SUCCEEDED" 50 (Some []) (Some series))).
  - reflexivity.
  - vm_compute. reflexivity.
  - reflexivity.
  - reflexivity.
  - reflexivity.
  - simpl. repeat constructor. discriminate.
Defined.

(** Enrichment switched off; a career without a mapping; a mapping that
    names no series. *)
Lemma no_enrichment_is_empty_and_silent_witness :
  let off := testEnv {["BLS_ENABLED" := "false"]} (network echoProvider) in
  let w := freshWorld [] 0 in
  getJobSpecificEconomicDataIn off CAREER_BLS_MAPPINGS "rn-001" w = (Ok [], w) ∧
  getJobSpecificEconomicData echoProvider "unmapped-career" w = (Ok [], w) ∧
  getJobSpecificEconomicDataIn echoProvider sparseTable "blank-001" w = (Ok [], w).
Proof.
  intros off w. split_and!.
  - apply (no_enrichment_is_empty_and_silent off CAREER_BLS_MAPPINGS "rn-001" w).
    left. vm_compute. reflexivity.
  - apply (no_enrichment_is_empty_and_silent echoProvider CAREER_BLS_MAPPINGS
             "unmapped-career" w).
    right. left. vm_compute. reflexivity.
  - apply (no_enrichment_is_empty_and_silent echoProvider sparseTable
             "blank-001" w).
    right. right. eexists. split; vm_compute; reflexivity.
Defined.

(** ['B','A'] is ['A','B'] after the call, and so is the request body. *)
Lemma seriesIds_sorted_in_place_witness :
  let E := echoProvider in
  let cfg := getConfig (process_env E) None in
  let ids := ["B"; "A"] in
  let w := freshWorld [ids] 0 in
  let run := getMultipleSeries E 0%nat (Some 2023) (Some 2023) None w in
  let req := requestFor cfg (jsSort ids) (Some 2023) (Some 2023) in
  let reqS := requestFor cfg ["CUSR0000SA0"] (Some 2023) (Some 2023) in
  (arrays run.2 = <[0%nat := jsSort ids]> (arrays w) ∧
   arrays run.2 !! 0%nat = Some (jsSort ids) ∧
   Sorted jsStringLe (jsSort ids) ∧ jsSort ids ≡ₚ ids ∧
   seriesid req = jsSort ids ∧
   ∃ x k, (x ≤ 1)%nat ∧
     exchanges run.2 = exchanges w ++ replicate x req ∧
     attempts run.2 = attempts w ++ replicate k req)
  ∧
  (let wS' := (getSeries E "CUSR0000SA0" (Some 2023) (Some 2023) None w).2 in
   arrays wS' = arrays w ++ [["CUSR0000SA0"]] ∧
   jsSort ["CUSR0000SA0"] = ["CUSR0000SA0"] ∧
   ∃ x k, (x ≤ 1)%nat ∧
     exchanges wS' = exchanges w ++ replicate x reqS ∧
     attempts wS' = attempts w ++ replicate k reqS).
Proof.
  intros E cfg ids w run req reqS.
  apply (seriesIds_sorted_in_place E 0%nat ids (Some 2023) (Some 2023) None
           w run.2 run.1 "CUSR0000SA0" w).
  - reflexivity.
  - vm_compute. lia.
  - vm_compute. reflexivity.
Defined.

(** The array and the request of that call, spelled out. *)
Example sorted_in_place_B_A :
  let run := getMultipleSeries echoProvider 0%nat (Some 2023) (Some 2023) None
               (freshWorld [["B"; "A"]] 0) in
  arrays run.2 = [["A"; "B"]] ∧ seriesid <$> attempts run.2 = [["A"; "B"]].
Proof. vm_compute. split; reflexivity. Qed.

(** * Further properties of the client *)

(** ** Retrying *)

Section Retrying.

Context (E : Env).

(** After [k] retryable outcomes an answer that is not a 429 ends the loop:
    it is returned as it is, after [k + 1] calls of [fetch] and the [k]
    sleeps of the backoff. *)
Lemma retryLoop_answer req cfg resp k : ∀ (n a : nat) le w,
  (k < n)%nat →
  Forall retryable (outcomesAt E (length (attempts w)) k req) →
  network E (length (attempts w) + k) req = Responded resp →
  status resp ≠ 429 →
  ∃ w',
    retryLoop E n (Z.of_nat a) le req cfg w = (Ok resp, w') ∧
    attempts w' = attempts w ++ replicate (S k) req ∧
    sleeps w' = sleeps w ++ backoffDelays cfg a k ∧
    arrays w' = arrays w ∧ cache w' = cache w ∧ exchanges w' = exchanges w.
Proof.
  induction k as [|k IH]; intros n a le w Hk Hall Hnet Hst.
  - destruct n as [|n]; [lia|]. rewrite Nat.add_0_r in Hnet.
    exists (afterFetch E req w). simpl. unfold retryBody, fetch. run.
    rewrite Hnet. simpl. rewrite decide_False by done.
    unfold backoffDelays. simpl. by rewrite app_nil_r.
  - destruct n as [|n]; [lia|].
    unfold outcomesAt in Hall. simpl in Hall.
    apply Forall_cons in Hall as [Hhd Htl].
    set (w1 := afterFetch E req w).
    set (w2 := set_clock (fun t => t + Z.max 0 (retryDelay cfg * 2 ^ Z.of_nat a))
                 (set_sleeps (fun s => s ++ [retryDelay cfg * 2 ^ Z.of_nat a]) w1)).
    assert (Hlen : length (attempts w2) = S (length (attempts w))).
    { simpl. rewrite length_app. simpl. lia. }
    assert (Hrun : ∀ le', ∃ w',
      retryLoop E n (Z.of_nat a + 1) le' req cfg w2 = (Ok resp, w') ∧
      attempts w' = attempts w2 ++ replicate (S k) req ∧
      sleeps w' = sleeps w2 ++ backoffDelays cfg (S a) k ∧
      arrays w' = arrays w2 ∧ cache w' = cache w2 ∧ exchanges w' = exchanges w2).
    { intros le'. replace (Z.of_nat a + 1) with (Z.of_nat (S a)) by lia.
      apply IH; [lia| |by rewrite Hlen; rewrite <- Hnet; f_equal; lia|done].
      by rewrite Hlen. }
    assert (Hstep : ∃ le', retryLoop E (S n) (Z.of_nat a) le req cfg w
                           = retryLoop E n (Z.of_nat a + 1) le' req cfg w2).
    { simpl. unfold retryBody, fetch. run. fold (afterFetch E req w). fold w1.
      destruct (network E (length (attempts w)) req) as [msg|r]; simpl.
      - by exists (Some msg).
      - simpl in Hhd. rewrite decide_True by done. simpl. by exists le. }
    destruct Hstep as [le' Hstep]. destruct (Hrun le') as (w' & Hr & Hat & Hsl & Har & Hca & Hex).
    exists w'. rewrite Hstep. split_and!; try done.
    + rewrite Hat. simpl. by rewrite <- app_assoc.
    + rewrite Hsl. simpl. unfold backoffDelays. simpl. by rewrite <- app_assoc.
Qed.

End Retrying.

Section Backoff.

Context (E : Env).

(** X7. A retryable outcome is retried and any other answer is returned at
    once: after [k] throttled or failed attempts, with [k] below
    [maxRetries], an answer whose status is not 429 (a success or an error
    such as 500) is what [fetchWithRetry] returns, after exactly [k + 1] calls
    of [fetch] and the sleeps [retryDelay * 2^0, ..., retryDelay * 2^(k-1)]. *)
Theorem fetchWithRetry_returns_first_answer
    (req : Request) (cfg : BLSClientConfig) (w : World) (resp : Response) (k : nat) :
  Z.of_nat k < maxRetries cfg →
  Forall retryable (outcomesAt E (length (attempts w)) k req) →
  network E (length (attempts w) + k) req = Responded resp →
  status resp ≠ 429 →
  ∃ w',
    fetchWithRetry E req cfg w = (Ok resp, w') ∧
    attempts w' = attempts w ++ replicate (S k) req ∧
    sleeps w' = sleeps w ++ backoffDelays cfg 0 k ∧
    exchanges w' = exchanges w ++ [req] ∧
    arrays w' = arrays w ∧ cache w' = cache w.
Proof.
  intros Hk Hall Hnet Hst.
  destruct (retryLoop_answer E req cfg resp k (Z.to_nat (maxRetries cfg)) 0 None
              (set_exchanges (fun x => x ++ [req]) w))
    as (w' & Hrun & Hat & Hsl & Har & Hca & Hex); [lia|done|done|done|].
  exists w'. split; [exact Hrun|]. simpl in Hex. done.
Qed.

Lemma sumZ_app l1 l2 : sumZ (l1 ++ l2) = sumZ l1 + sumZ l2.
Proof. unfold sumZ. induction l1 as [|x l1 IH]; simpl; lia. Qed.

Lemma backoffDelays_S cfg a n :
  backoffDelays cfg a (S n)
  = backoffDelays cfg a n ++ [retryDelay cfg * 2 ^ Z.of_nat (a + n)].
Proof.
  unfold backoffDelays. rewrite seq_S, fmap_app. done.
Qed.

(** The sleeps of [n] iterations add up to [retryDelay * (2^n - 1)]. *)
Lemma backoffDelays_total cfg n :
  sumZ (backoffDelays cfg 0 n) = retryDelay cfg * (2 ^ Z.of_nat n - 1).
Proof.
  induction n as [|n IH]; [simpl; lia|].
  rewrite backoffDelays_S, sumZ_app, IH. simpl.
  rewrite Nat2Z.inj_succ, Z.pow_succ_r by lia. lia.
Qed.

(** X8. When every attempt is throttled or fails, [fetchWithRetry] sleeps
    after each attempt, the last one included, before it throws: with
    [maxRetries = n] it asks for the [n] delays [retryDelay * 2^0, ...,
    retryDelay * 2^(n-1)], which add up to [retryDelay * (2^n - 1)]
    milliseconds. *)
Theorem exhausted_retries_total_wait
    (req : Request) (cfg : BLSClientConfig) (w w' : World) (res : Result Response) :
  let n := Z.to_nat (maxRetries cfg) in
  Forall retryable (outcomesAt E (length (attempts w)) n req) →
  fetchWithRetry E req cfg w = (res, w') →
  res = Throw (retriesExhausted cfg
                 (lastThrown None (outcomesAt E (length (attempts w)) n req))) ∧
  sleeps w' = sleeps w ++ backoffDelays cfg 0 n ∧
  length (backoffDelays cfg 0 n) = n ∧
  (∀ i, (i < n)%nat →
        backoffDelays cfg 0 n !! i = Some (retryDelay cfg * 2 ^ Z.of_nat i)) ∧
  sumZ (backoffDelays cfg 0 n) = retryDelay cfg * (2 ^ Z.of_nat n - 1).
Proof.
  intros n Hall Hrun.
  destruct (fetchWithRetry_exhausted E req cfg w Hall)
    as (w1 & Hrun1 & _ & Hsl & _).
  rewrite Hrun in Hrun1. injection Hrun1 as -> <-.
  split_and!; [done|done| | |apply backoffDelays_total].
  - unfold backoffDelays. by rewrite length_fmap, length_seq.
  - intros i Hi. unfold backoffDelays.
    rewrite list_lookup_fmap, lookup_seq_lt by done. done.
Qed.

End Backoff.

(** ** The cache and the errors of one request *)

Section OneRequest.

Context (E : Env).

Lemma interpret_frame cfg key resp wf res w' :
  interpret cfg key resp wf = (res, w') →
  match res with
  | Ok r => w' = stored cfg key r wf
  | Throw _ => w' = wf
  end.
Proof.
  unfold interpret. destruct (ok resp); [|by intros [= <- <-]].
  destruct (json resp) as [dat|e]; [|by intros [= <- <-]].
  destruct (decide _); by intros [= <- <-].
Qed.

(** What [fetchSeriesData] may do to the cache, whatever the outcome. *)
Lemma fetchSeriesData_cache l ids startYear endYear ovr w res w' :
  arrays w !! l = Some ids →
  fetchSeriesData E l startYear endYear ovr w = (res, w') →
  let cfg := getConfig (process_env E) ovr in
  let key := cacheKey ids startYear endYear in
  match res with
  | Throw _ => cache w' = cache w
  | Ok r =>
      (freshEntry cfg key w = Some r ∧ cache w' = cache w) ∨
      (freshEntry cfg key w = None ∧ enableCache cfg = false ∧ cache w' = cache w) ∨
      (freshEntry cfg key w = None ∧ enableCache cfg = true ∧
       cache w' = <[key := mkCacheEntry r (clock w')]> (cache w))
  end.
Proof.
  intros Hl Hrun cfg key.
  rewrite (fetchSeriesData_run E _ _ _ _ _ _ Hl) in Hrun. fold cfg key in Hrun.
  destruct (freshEntry cfg key w) as [d|] eqn:Hfresh.
  { injection Hrun as <- <-. by left. }
  unfold missPath in Hrun.
  destruct (fetchWithRetry E _ cfg _) as [[resp|e] wf] eqn:Hf;
    apply fetchWithRetry_frame in Hf as (_ & Hc & _); simpl in Hc.
  - apply interpret_frame in Hrun. destruct res as [r|e]; [|by subst].
    right. subst w'. unfold stored.
    destruct (enableCache cfg); [right|left]; simpl; by rewrite ?Hc.
  - injection Hrun as <- <-. done.
Qed.

(** A call within the ceiling that finds a fresh entry is answered from it,
    without any network access. *)
Lemma getMultipleSeries_served l ids startYear endYear ovr w r :
  let cfg := getConfig (process_env E) ovr in
  arrays w !! l = Some ids →
  (length ids ≤ maxSeriesPerRequest cfg)%nat →
  freshEntry cfg (cacheKey ids startYear endYear) w = Some r →
  getMultipleSeries E l startYear endYear ovr w
  = (Ok r, set_arrays (fun h => <[l := jsSort ids]> h) w).
Proof.
  intros cfg Hl Hle Hfresh.
  rewrite (getMultipleSeries_within E _ _ _ _ _ _ Hl Hle).
  rewrite (fetchSeriesData_run E _ _ _ _ _ _ Hl). fold cfg. by rewrite Hfresh.
Qed.

(** A call within the ceiling that finds no fresh entry goes to the provider
    with one exchange, whatever comes of it. *)
Lemma getMultipleSeries_missed l ids startYear endYear ovr w res w' :
  let cfg := getConfig (process_env E) ovr in
  arrays w !! l = Some ids →
  (length ids ≤ maxSeriesPerRequest cfg)%nat →
  freshEntry cfg (cacheKey ids startYear endYear) w = None →
  getMultipleSeries E l startYear endYear ovr w = (res, w') →
  exchanges w' = exchanges w ++ [requestFor cfg (jsSort ids) startYear endYear] ∧
  (1 ≤ maxRetries cfg → (length (attempts w) < length (attempts w'))%nat).
Proof.
  intros cfg Hl Hle Hfresh Hrun.
  rewrite (getMultipleSeries_within E _ _ _ _ _ _ Hl Hle) in Hrun.
  rewrite (fetchSeriesData_run E _ _ _ _ _ _ Hl) in Hrun. fold cfg in Hrun.
  rewrite Hfresh in Hrun. unfold missPath in Hrun.
  destruct (fetchWithRetry E _ cfg _) as [r0 wf] eqn:Hf.
  apply fetchWithRetry_frame in Hf as (_ & _ & Hx & k & _ & Hat & _ & Hk).
  simpl in Hx, Hat.
  assert (Hw : exchanges w' = exchanges wf ∧ attempts w' = attempts wf).
  { destruct r0 as [resp|e]; [|by injection Hrun as <- <-].
    apply interpret_frame in Hrun. destruct res; subst w'; [|done].
    unfold stored. by destruct (enableCache cfg). }
  destruct Hw as [-> ->]. split; [done|].
  intros Hpos. rewrite Hat, length_app, length_replicate. specialize (Hk Hpos). lia.
Qed.

(** X1. [clearCache] empties the cache ([getCacheSize] is 0 afterwards), and
    the next call of [getMultipleSeries] within the ceiling goes to the
    provider with one exchange, whatever the cache held before. *)
Theorem clearCache_forces_refetch
    (l : loc) (ids : list string) (startYear endYear : option Z)
    (ovr : option PartialConfig) (w : World) :
  let cfg := getConfig (process_env E) ovr in
  let cleared := (clearCache w).2 in
  arrays w !! l = Some ids →
  (length ids ≤ maxSeriesPerRequest cfg)%nat →
  getCacheSize cleared = (Ok 0%nat, cleared) ∧
  exchanges ((getMultipleSeries E l startYear endYear ovr cleared).2)
  = exchanges w ++ [requestFor cfg (jsSort ids) startYear endYear].
Proof.
  intros cfg cleared Hl Hle. split.
  - unfold getCacheSize, cleared, clearCache. simpl. by rewrite map_size_empty.
  - destruct (getMultipleSeries E l startYear endYear ovr cleared) as [res w'] eqn:Hrun.
    apply getMultipleSeries_missed with (ids := ids) in Hrun as [Hx _]; try done.
    unfold freshEntry, cleared, clearCache. simpl. rewrite lookup_empty.
    by destruct (enableCache _).
Qed.

(** X2. A call of [getMultipleSeries] within the ceiling touches no cache
    entry but the one under its own key, and [getCacheSize] grows by one at
    most: by exactly one when the call stores a result under a key that was
    not in the cache, and not at all otherwise (an expired entry is
    overwritten, not added to). *)
Theorem call_touches_only_its_key
    (l : loc) (ids : list string) (startYear endYear : option Z)
    (ovr : option PartialConfig) (w w' : World) (res : Result (list BLSSeries)) :
  let cfg := getConfig (process_env E) ovr in
  let key := cacheKey ids startYear endYear in
  arrays w !! l = Some ids →
  (length ids ≤ maxSeriesPerRequest cfg)%nat →
  getMultipleSeries E l startYear endYear ovr w = (res, w') →
  (∀ k, k ≠ key → cache w' !! k = cache w !! k) ∧
  (size (cache w') = size (cache w)
   ∨ (cache w !! key = None ∧ is_Some (cache w' !! key) ∧
      size (cache w') = S (size (cache w)))) ∧
  (is_Some (cache w !! key) → size (cache w') = size (cache w)).
Proof.
  intros cfg key Hl Hle Hrun.
  rewrite (getMultipleSeries_within E _ _ _ _ _ _ Hl Hle) in Hrun.
  pose proof (fetchSeriesData_cache _ _ _ _ _ _ _ _ Hl Hrun) as Hc.
  fold cfg key in Hc.
  assert (Hcases : cache w' = cache w
                   ∨ ∃ e, cache w' = <[key := e]> (cache w)).
  { destruct res as [r|e]; [|by left].
    destruct Hc as [[_ ?]|[(_ & _ & ?)|(_ & _ & ?)]]; eauto. }
  destruct Hcases as [->|[e ->]]; [by split_and!; [|left|]|].
  split_and!.
  - intros k Hk. by rewrite lookup_insert_ne.
  - destruct (cache w !! key) as [e0|] eqn:Hold.
    + left. apply map_size_insert_Some. by eexists.
    + right. split_and!; [done| |by apply map_size_insert_None].
      rewrite lookup_insert_eq. by eexists.
  - intros Hold. by apply map_size_insert_Some.
Qed.

(** X3. With caching disabled ([enableCache: false], or
    BLS_CACHE_ENABLED=false without an override) a call within the ceiling
    neither reads nor writes the cache: it issues one exchange even when a
    fresh entry for its key is there, and leaves the cache as it was. *)
Theorem disabled_cache_is_bypassed
    (l : loc) (ids : list string) (startYear endYear : option Z)
    (ovr : option PartialConfig) (w w' : World) (res : Result (list BLSSeries)) :
  let cfg := getConfig (process_env E) ovr in
  enableCache cfg = false →
  arrays w !! l = Some ids →
  (length ids ≤ maxSeriesPerRequest cfg)%nat →
  getMultipleSeries E l startYear endYear ovr w = (res, w') →
  cache w' = cache w ∧
  exchanges w' = exchanges w ++ [requestFor cfg (jsSort ids) startYear endYear].
Proof.
  intros cfg Hoff Hl Hle Hrun.
  assert (Hfresh : freshEntry cfg (cacheKey ids startYear endYear) w = None).
  { unfold freshEntry. by rewrite Hoff. }
  split.
  - rewrite (getMultipleSeries_within E _ _ _ _ _ _ Hl Hle) in Hrun.
    pose proof (fetchSeriesData_cache _ _ _ _ _ _ _ _ Hl Hrun) as Hc.
    fold cfg in Hc. destruct res as [r|e]; [|done].
    destruct Hc as [[? _]|[(_ & _ & ?)|(_ & ? & _)]]; congruence.
  - by apply (getMultipleSeries_missed _ _ _ _ _ _ _ _ Hl Hle Hfresh Hrun).
Qed.

(** X4. A call within the ceiling that fails leaves the cache exactly as it
    was: nothing is stored for a request that was not answered with a
    success, and an older entry under the key, fresh or not, is kept. *)
Theorem failed_call_leaves_cache_unchanged
    (l : loc) (ids : list string) (startYear endYear : option Z)
    (ovr : option PartialConfig) (w w' : World) (e : string) :
  arrays w !! l = Some ids →
  (length ids ≤ maxSeriesPerRequest (getConfig (process_env E) ovr))%nat →
  getMultipleSeries E l startYear endYear ovr w = (Throw e, w') →
  cache w' = cache w ∧
  freshEntry (getConfig (process_env E) ovr) (cacheKey ids startYear endYear) w = None.
Proof.
  intros Hl Hle Hrun.
  rewrite (getMultipleSeries_within E _ _ _ _ _ _ Hl Hle) in Hrun.
  split; [exact (fetchSeriesData_cache _ _ _ _ _ _ _ _ Hl Hrun)|].
  rewrite (fetchSeriesData_run E _ _ _ _ _ _ Hl) in Hrun.
  by destruct (freshEntry _ _ w).
Qed.

End OneRequest.

Section Answers.

Context (E : Env).

(** X5. An answer that is not [ok] (and not a 429, which is retried) makes
    the call fail with "BLS API error: <status> <statusText>"; its body is
    not read, and nothing is cached. *)
Theorem http_error_is_thrown
    (l : loc) (ids : list string) (startYear endYear : option Z)
    (ovr : option PartialConfig) (w wf : World) (resp : Response) :
  let cfg := getConfig (process_env E) ovr in
  let w0 := set_arrays (fun h => <[l := jsSort ids]> h) w in
  arrays w !! l = Some ids →
  (length ids ≤ maxSeriesPerRequest cfg)%nat →
  freshEntry cfg (cacheKey ids startYear endYear) w = None →
  fetchWithRetry E (requestFor cfg (jsSort ids) startYear endYear) cfg w0
    = (Ok resp, wf) →
  ok resp = false →
  getMultipleSeries E l startYear endYear ovr w
  = (Throw ("BLS API error: " +:+ numberToString (status resp)
              +:+ " " +:+ statusText resp), wf) ∧
  cache wf = cache w.
Proof.
  intros cfg w0 Hl Hle Hfresh Hf Hok.
  rewrite (getMultipleSeries_within E _ _ _ _ _ _ Hl Hle).
  rewrite (fetchSeriesData_run E _ _ _ _ _ _ Hl). fold cfg w0.
  rewrite Hfresh. unfold missPath. rewrite Hf. unfold interpret. rewrite Hok.
  split; [done|]. by apply fetchWithRetry_frame in Hf as (_ & ? & _).
Qed.

(** X6. An [ok] answer whose envelope does not say REQUEST_SUCCEEDED makes
    the call fail with "BLS API error: " followed by the provider's messages
    joined by "; " (or "Unknown BLS API error" when there is none), even when
    the envelope carries series; nothing is cached. *)
Theorem api_error_is_thrown
    (l : loc) (ids : list string) (startYear endYear : option Z)
    (ovr : option PartialConfig) (w wf : World) (resp : Response)
    (dat : BLSApiResponse) :
  let cfg := getConfig (process_env E) ovr in
  let w0 := set_arrays (fun h => <[l := jsSort ids]> h) w in
  arrays w !! l = Some ids →
  (length ids ≤ maxSeriesPerRequest cfg)%nat →
  freshEntry cfg (cacheKey ids startYear endYear) w = None →
  fetchWithRetry E (requestFor cfg (jsSort ids) startYear endYear) cfg w0
    = (Ok resp, wf) →
  ok resp = true →
  json resp = Ok dat →
  api_status dat ≠ "REQUEST_SUCCEEDED" →
  getMultipleSeries E l startYear endYear ovr w
  = (Throw ("BLS API error: " +:+
            match message dat with
            | Some (m :: ms) => strOr (join "; " (m :: ms)) "Unknown BLS API error"
            | _ => "Unknown BLS API error"
            end), wf) ∧
  cache wf = cache w.
Proof.
  intros cfg w0 Hl Hle Hfresh Hf Hok Hjson Hst.
  rewrite (getMultipleSeries_within E _ _ _ _ _ _ Hl Hle).
  rewrite (fetchSeriesData_run E _ _ _ _ _ _ Hl). fold cfg w0.
  rewrite Hfresh. unfold missPath. rewrite Hf. unfold interpret.
  rewrite Hok, Hjson, decide_False by done.
  split; [|by apply fetchWithRetry_frame in Hf as (_ & ? & _)].
  unfold errorMessages. by destruct (message dat) as [[|m ms]|].
Qed.

Lemma stored_after_miss l ids startYear endYear ovr w r w1 :
  let cfg := getConfig (process_env E) ovr in
  let key := cacheKey ids startYear endYear in
  arrays w !! l = Some ids →
  enableCache cfg = true →
  freshEntry cfg key w = None →
  fetchSeriesData E l startYear endYear ovr w = (Ok r, w1) →
  cache w1 !! key = Some (mkCacheEntry r (clock w1)).
Proof.
  intros cfg key Hl Hen Hfresh Hrun.
  pose proof (fetchSeriesData_cache E _ _ _ _ _ _ _ _ Hl Hrun) as Hc.
  fold cfg key in Hc. simpl in Hc.
  destruct Hc as [[? _]|[(_ & ? & _)|(_ & _ & ->)]]; [congruence..|].
  apply lookup_insert_eq.
Qed.

(** X9. The cache key does not tell the year 0 from a missing year
    ([startYear || 'null']): after a successful call without a start year, a
    call for the same identifiers with start year 0, within the TTL, is
    answered from the cache entry of the first, although the request it would
    have sent (with [startyear: "0"]) is a different one. *)
Theorem year_zero_shares_the_entry_of_no_year
    (l : loc) (ids : list string) (endYear : option Z)
    (ovr : option PartialConfig) (w w1 : World) (r : list BLSSeries)
    (l2 : loc) (ids2 : list string) (w2 : World) :
  let cfg := getConfig (process_env E) ovr in
  enableCache cfg = true →
  arrays w !! l = Some ids →
  (length ids ≤ maxSeriesPerRequest cfg)%nat →
  freshEntry cfg (cacheKey ids None endYear) w = None →
  getMultipleSeries E l None endYear ovr w = (Ok r, w1) →
  arrays w2 !! l2 = Some ids2 →
  ids2 ≡ₚ ids →
  cache w2 = cache w1 →
  clock w2 - clock w1 < cacheTTL cfg →
  cacheKey ids2 (Some 0) endYear = cacheKey ids None endYear ∧
  getMultipleSeries E l2 (Some 0) endYear ovr w2
  = (Ok r, set_arrays (fun h => <[l2 := jsSort ids2]> h) w2) ∧
  requestFor cfg (jsSort ids2) (Some 0) endYear
  ≠ requestFor cfg (jsSort ids) None endYear.
Proof.
  intros cfg Hen Hl Hle Hfresh Hrun Hl2 Hperm Hc Hclock.
  assert (Hkey : cacheKey ids2 (Some 0) endYear = cacheKey ids None endYear).
  { unfold cacheKey. by rewrite (jsSort_perm _ _ Hperm). }
  split_and!; [done| |discriminate].
  rewrite (getMultipleSeries_within E _ _ _ _ _ _ Hl Hle) in Hrun.
  pose proof (stored_after_miss _ _ _ _ _ _ _ _ Hl Hen Hfresh Hrun) as Hst.
  apply getMultipleSeries_served; [done|by rewrite (Permutation_length Hperm)|].
  rewrite Hkey. by apply (freshEntry_stored cfg _ r w1 w2).
Qed.

Lemma getSeries_run seriesId startYear endYear ovr w :
  getSeries E seriesId startYear endYear ovr w
  = (let '(res, w') := fetchSeriesData E (length (arrays w)) startYear endYear ovr
                         (set_arrays (fun h => h ++ [[seriesId]]) w) in
     (match res with
      | Ok series => Ok (findSeries seriesId series)
      | Throw e => Throw e
      end, w')).
Proof.
  unfold getSeries, allocArray. run.
  by destruct (fetchSeriesData E _ _ _ _ _) as [[?|?] ?].
Qed.

Lemma alloc_lookup (w : World) (x : list string) :
  arrays (set_arrays (fun h => h ++ [x]) w) !! length (arrays w) = Some x.
Proof. simpl. rewrite lookup_app_r by lia. by rewrite Nat.sub_diag. Qed.

(** X17. [getSeries] caches what the provider answered, a missing series
    included: when a call that was not served from the cache returns (a
    series or [null]), the same call within the TTL returns the same value
    from the cache, with no exchange and no call of [fetch]. *)
Theorem getSeries_repeat_is_cached
    (seriesId : string) (startYear endYear : option Z)
    (ovr : option PartialConfig) (w w1 w2 : World) (found : option BLSSeries) :
  let cfg := getConfig (process_env E) ovr in
  enableCache cfg = true →
  freshEntry cfg (cacheKey [seriesId] startYear endYear) w = None →
  getSeries E seriesId startYear endYear ovr w = (Ok found, w1) →
  cache w2 = cache w1 →
  clock w2 - clock w1 < cacheTTL cfg →
  ∃ w3,
    getSeries E seriesId startYear endYear ovr w2 = (Ok found, w3) ∧
    exchanges w3 = exchanges w2 ∧ attempts w3 = attempts w2 ∧
    cache w3 = cache w2 ∧
    length (exchanges w1) = S (length (exchanges w)).
Proof.
  intros cfg Hen Hfresh Hrun Hc Hclock.
  rewrite getSeries_run in Hrun.
  destruct (fetchSeriesData E (length (arrays w)) startYear endYear ovr _)
    as [[series|e] w1'] eqn:Hf; [|discriminate].
  injection Hrun as <- <-.
  pose proof (alloc_lookup w [seriesId]) as Hl.
  assert (Hfresh0 : freshEntry cfg (cacheKey [seriesId] startYear endYear)
                      (set_arrays (fun h => h ++ [[seriesId]]) w) = None) by done.
  pose proof (stored_after_miss _ _ _ _ _ _ _ _ Hl Hen Hfresh0 Hf) as Hst.
  rewrite getSeries_run.
  pose proof (alloc_lookup w2 [seriesId]) as Hl2.
  rewrite (fetchSeriesData_run E _ _ _ _ _ _ Hl2). fold cfg.
  assert (Hhit : freshEntry cfg (cacheKey [seriesId] startYear endYear)
                   (set_arrays (fun h => h ++ [[seriesId]]) w2) = Some series).
  { by apply (freshEntry_stored cfg _ series w1'). }
  rewrite Hhit. eexists. split_and!; try done.
  rewrite (fetchSeriesData_run E _ _ _ _ _ _ Hl) in Hf. fold cfg in Hf.
  rewrite Hfresh0 in Hf. unfold missPath in Hf.
  destruct (fetchWithRetry E _ cfg _) as [[resp|e] wf] eqn:Hfw; [|discriminate].
  apply fetchWithRetry_frame in Hfw as (_ & _ & Hx & _). simpl in Hx.
  apply interpret_frame in Hf. subst w1'. unfold stored. rewrite Hen. simpl.
  rewrite Hx, length_app. simpl. lia.
Qed.

End Answers.

(** ** What a cache key determines *)

Lemma length_append (s t : string) :
  String.length (s +:+ t) = (String.length s + String.length t)%nat.
Proof.
  induction s as [|c s IH]; [done|].
  change (S (String.length (s +:+ t)) = S (String.length s + String.length t)).
  by rewrite IH.
Qed.

Lemma append_inv_tail (s1 s2 t : string) : s1 +:+ t = s2 +:+ t → s1 = s2.
Proof.
  revert s2. induction s1 as [|c s1 IH]; intros [|c2 s2] Heq; simpl in Heq.
  - done.
  - apply (f_equal String.length) in Heq.
    change (String.length t = S (String.length (s2 +:+ t))) in Heq.
    rewrite length_append in Heq. lia.
  - apply (f_equal String.length) in Heq.
    change (S (String.length (s1 +:+ t)) = String.length t) in Heq.
    rewrite length_append in Heq. lia.
  - injection Heq as -> Heq. f_equal. by apply IH.
Qed.

Lemma hasChar_append c s t : hasChar c (s +:+ t) = hasChar c s || hasChar c t.
Proof.
  induction s as [|c' s IH]; simpl; [done|]. by destruct (decide (c' = c)).
Qed.

(** Two strings without [c], each followed by nothing or by [c] and more,
    are equal when the wholes are, and so are the tails. *)
Lemma split_at_char c (x y t1 t2 : string) :
  hasChar c x = false → hasChar c y = false →
  (t1 = "" ∨ ∃ r, t1 = String c r) →
  (t2 = "" ∨ ∃ r, t2 = String c r) →
  x +:+ t1 = y +:+ t2 → x = y ∧ t1 = t2.
Proof.
  revert y. induction x as [|a x IH]; intros [|b y] Hx Hy H1 H2 Heq;
    simpl in Heq, Hx, Hy.
  - done.
  - exfalso. destruct H1 as [->|[r ->]]; [done|].
    injection Heq as <- _. by rewrite decide_True in Hy.
  - exfalso. destruct H2 as [->|[r ->]]; [done|].
    injection Heq as -> _. by rewrite decide_True in Hx.
  - injection Heq as -> Heq.
    destruct (decide (b = c)); [done|].
    destruct (IH y Hx Hy H1 H2 Heq) as [-> ->]. done.
Qed.

Lemma append_empty_r (s : string) : s +:+ "" = s.
Proof.
  induction s as [|c s IH]; [done|].
  change (String c (s +:+ "") = String c s). by rewrite IH.
Qed.

Lemma join_cons c x l :
  join (String c "") (x :: l) = x +:+ joinTail c l.
Proof. destruct l; [symmetry; apply append_empty_r|reflexivity]. Qed.

Lemma joinTail_shape c l : joinTail c l = "" ∨ ∃ r, joinTail c l = String c r.
Proof. destruct l; [by left|right; by eexists]. Qed.

(** [join(',')] loses nothing on plain identifiers. *)
Lemma join_plain_inj (l1 l2 : list string) :
  Forall plainId l1 → Forall plainId l2 →
  join "," l1 = join "," l2 → l1 = l2.
Proof.
  revert l2. induction l1 as [|x l1 IH]; intros [|y l2] H1 H2 Heq.
  - done.
  - exfalso. apply Forall_cons in H2 as [[Hy _] _].
    change (join "," (y :: l2)) with (join (String (Ascii.ascii_of_nat 44) "") (y :: l2)) in Heq.
    rewrite join_cons in Heq. destruct y; [done|discriminate].
  - exfalso. apply Forall_cons in H1 as [[Hx _] _].
    change (join "," (x :: l1)) with (join (String (Ascii.ascii_of_nat 44) "") (x :: l1)) in Heq.
    rewrite join_cons in Heq. destruct x; [done|discriminate].
  - apply Forall_cons in H1 as [[_ Hx] H1]. apply Forall_cons in H2 as [[_ Hy] H2].
    change (join (String (Ascii.ascii_of_nat 44) "") (x :: l1)
            = join (String (Ascii.ascii_of_nat 44) "") (y :: l2)) in Heq.
    rewrite !join_cons in Heq.
    apply split_at_char with (c := Ascii.ascii_of_nat 44) in Heq
      as [-> Htl]; [|done|done|apply joinTail_shape..].
    f_equal. destruct l1 as [|x1 l1], l2 as [|y1 l2]; [done|done|done|].
    simpl in Htl. injection Htl as Htl. by apply IH.
Qed.

(** X10. For identifiers that are not empty and hold no comma, the converse
    of the invariance under permutation: two id lists that get the same cache
    key under the same year bounds hold the same identifiers with the same
    multiplicities. Different sets of series never share a cache entry. *)
Theorem same_key_same_ids
    (ids1 ids2 : list string) (startYear endYear : option Z) :
  Forall plainId ids1 → Forall plainId ids2 →
  cacheKey ids1 startYear endYear = cacheKey ids2 startYear endYear →
  ids1 ≡ₚ ids2.
Proof.
  intros H1 H2 Hkey. unfold cacheKey, cacheKeyOf in Hkey.
  apply append_inv_tail in Hkey.
  apply join_plain_inj in Hkey.
  - by rewrite <- (jsSort_Permutation ids1), Hkey, jsSort_Permutation.
  - by rewrite jsSort_Permutation.
  - by rewrite jsSort_Permutation.
Qed.

Lemma same_key_same_ids_witness :
  ["LNS14000000"; "CUSR0000SA0"] ≡ₚ ["CUSR0000SA0"; "LNS14000000"].
Proof.
  apply (same_key_same_ids ["LNS14000000"; "CUSR0000SA0"]
           ["CUSR0000SA0"; "LNS14000000"] (Some 2020) (Some 2023)).
  - repeat constructor; done.
  - repeat constructor; done.
  - vm_compute. reflexivity.
Defined.

(** Without that proviso the key is ambiguous: one identifier with a comma
    and two identifiers give the same key. *)
Example comma_in_an_id_collides :
  cacheKey ["A,B"] None None = cacheKey ["A"; "B"] None None.
Proof. reflexivity. Qed.

(** ** [parseInt] and the decimal rendering of integers *)

Lemma append_assoc (a b c : string) : (a +:+ b) +:+ c = a +:+ (b +:+ c).
Proof.
  induction a as [|x a IH]; [done|].
  change (String x ((a +:+ b) +:+ c) = String x (a +:+ (b +:+ c))). by rewrite IH.
Qed.

Lemma pretty_N_go_app (x : N) : ∀ s, pretty_N_go x s = pretty_N_go x "" +:+ s.
Proof.
  induction (N.lt_wf_0 x) as [x _ IH]; intros s.
  assert (x = 0 ∨ 0 < x)%N as [->|Hpos] by lia; [done|].
  rewrite (pretty_N_go_step x s), (pretty_N_go_step x "") by done.
  pose proof (N.div_lt x 10 Hpos eq_refl) as Hlt.
  rewrite (IH _ Hlt (String (pretty_N_char (x `mod` 10)) s)).
  rewrite (IH _ Hlt (String (pretty_N_char (x `mod` 10)) "")).
  by rewrite append_assoc.
Qed.

Lemma allDigits_app s t : allDigits (s +:+ t) = allDigits s && allDigits t.
Proof.
  induction s as [|c s IH]; [done|].
  change (bool_decide (is_Some (digitValue c)) && allDigits (s +:+ t)
          = bool_decide (is_Some (digitValue c)) && allDigits s && allDigits t).
  rewrite IH. by destruct (bool_decide _).
Qed.

Lemma digitsValue_app s t : ∀ acc,
  digitsValue acc (s +:+ t) = digitsValue (digitsValue acc s) t.
Proof.
  induction s as [|c s IH]; intros acc; [done|].
  change (digitsValue (10 * acc + default 0 (digitValue c)) (s +:+ t)
          = digitsValue (digitsValue (10 * acc + default 0 (digitValue c)) s) t).
  apply IH.
Qed.

Lemma digitValue_pretty_N_char (d : N) :
  (d < 10)%N → digitValue (pretty_N_char d) = Some (Z.of_N d).
Proof.
  intros Hd.
  assert (d = 0 ∨ d = 1 ∨ d = 2 ∨ d = 3 ∨ d = 4 ∨ d = 5 ∨ d = 6 ∨ d = 7
          ∨ d = 8 ∨ d = 9)%N as Hcases by lia.
  repeat (destruct Hcases as [->|Hcases]; [reflexivity|]). by subst.
Qed.

(** The digits that [pretty] writes for [x] spell [x]. *)
Lemma pretty_N_go_digits (x : N) :
  allDigits (pretty_N_go x "") = true ∧
  digitsValue 0 (pretty_N_go x "") = Z.of_N x.
Proof.
  induction (N.lt_wf_0 x) as [x _ IH].
  assert (x = 0 ∨ 0 < x)%N as [->|Hpos] by lia; [done|].
  rewrite pretty_N_go_step, pretty_N_go_app by done.
  destruct (IH (x `div` 10)%N) as [Hall Hval]; [by apply N.div_lt|].
  assert (Hd : digitValue (pretty_N_char (x `mod` 10))
               = Some (Z.of_N (x `mod` 10))).
  { apply digitValue_pretty_N_char. by apply N.mod_lt. }
  split.
  - rewrite allDigits_app, Hall. simpl. rewrite Hd. done.
  - rewrite digitsValue_app, Hval. simpl. rewrite Hd. simpl.
    rewrite (N.div_mod x 10) at 3 by done. lia.
Qed.

Lemma digit_is_no_space_or_sign c :
  is_Some (digitValue c) →
  isWhiteSpace c = false ∧ Ascii.nat_of_ascii c ≠ 45%nat ∧ Ascii.nat_of_ascii c ≠ 43%nat.
Proof.
  unfold digitValue, isWhiteSpace. intros [d Hd].
  destruct (decide (48 ≤ Ascii.nat_of_ascii c ≤ 57)%nat) as [Hr|]; [|done].
  split_and!; [|lia|lia]. apply bool_decide_eq_false. lia.
Qed.

Lemma parseDigits_stop rest v :
  stopsDigits rest → parseDigits rest (Some v) = Some v.
Proof. destruct rest as [|c r]; simpl; [done|]. by intros ->. Qed.

Lemma parseDigits_digits t rest : ∀ acc,
  allDigits t = true → t ≠ "" → stopsDigits rest →
  parseDigits (t +:+ rest) acc = Some (digitsValue (default 0 acc) t).
Proof.
  induction t as [|c t IH]; intros acc Hall Hne Hstop; [done|].
  simpl in Hall. apply andb_true_iff in Hall as [Hc Hall].
  apply bool_decide_eq_true in Hc as [d Hd].
  change (parseDigits (String c (t +:+ rest)) acc
          = Some (digitsValue (10 * default 0 acc + default 0 (digitValue c)) t)).
  simpl. rewrite Hd. simpl.
  destruct t as [|c' t'].
  - simpl. by apply parseDigits_stop.
  - by rewrite IH.
Qed.

Lemma leadingInteger_digits t rest :
  allDigits t = true → t ≠ "" → stopsDigits rest →
  leadingInteger (t +:+ rest) = Some (digitsValue 0 t).
Proof.
  intros Hall Hne Hstop. destruct t as [|c t]; [done|].
  pose proof Hall as Hall'. simpl in Hall'.
  apply andb_true_iff in Hall' as [Hc _]. apply bool_decide_eq_true in Hc.
  destruct (digit_is_no_space_or_sign c Hc) as (Hws & Hm & Hp).
  unfold leadingInteger.
  change (skipWhiteSpace (String c t +:+ rest))
    with (if isWhiteSpace c then skipWhiteSpace (t +:+ rest)
          else String c (t +:+ rest)).
  rewrite Hws, !decide_False by done.
  by apply (parseDigits_digits (String c t)).
Qed.

Lemma leadingInteger_minus (t : string) :
  leadingInteger (String (Ascii.ascii_of_nat 45) t) = Z.opp <$> parseDigits t None.
Proof. reflexivity. Qed.

(** The integer read from the decimal rendering of [n] followed by [rest]. *)
Lemma leadingInteger_decimal (n : Z) (rest : string) :
  stopsDigits rest →
  leadingInteger (numberToString n +:+ rest) = Some n.
Proof.
  intros Hstop. unfold numberToString, pretty, pretty_Z.
  destruct n as [|p|p].
  - by apply (leadingInteger_digits "0").
  - unfold pretty, pretty_positive, pretty, pretty_N.
    rewrite decide_False by done.
    destruct (pretty_N_go_digits (N.pos p)) as [Hall Hval].
    rewrite leadingInteger_digits; [by rewrite Hval|done| |done].
    intros Hempty. rewrite Hempty in Hval. done.
  - unfold pretty, pretty_positive, pretty, pretty_N.
    rewrite decide_False by done.
    destruct (pretty_N_go_digits (N.pos p)) as [Hall Hval].
    assert (Hne : pretty_N_go (N.pos p) "" ≠ "").
    { intros Hempty. rewrite Hempty in Hval. done. }
    change (("-" +:+ pretty_N_go (N.pos p) "") +:+ rest)
      with (String (Ascii.ascii_of_nat 45) (pretty_N_go (N.pos p) "" +:+ rest)).
    rewrite leadingInteger_minus.
    rewrite (parseDigits_digits _ rest None Hall Hne Hstop). simpl.
    by rewrite Hval.
Qed.

Lemma numberToString_not_empty (n : Z) : numberToString n ≠ "".
Proof.
  intros Hempty.
  pose proof (leadingInteger_decimal n "" I) as Hp.
  rewrite append_empty_r, Hempty in Hp. discriminate.
Qed.

(** A safe integer is its own Number. *)
Lemma toNumber_safe (n : Z) : safeInteger n → toNumber n = Some n.
Proof.
  unfold safeInteger, toNumber, roundToDouble. intros Hn.
  assert (Hpow : 2 ^ 53 < 2 ^ 1024) by (apply Z.pow_lt_mono_r; lia).
  assert (Habs : Z.abs n < 2 ^ 53) by (apply Z.abs_lt; exact Hn).
  rewrite (decide_True _ _ Habs).
  rewrite (decide_True _ _ (Z.lt_trans _ _ _ Habs Hpow)).
  f_equal. destruct n; reflexivity.
Qed.

(** [parseInt] on the decimal rendering of an integer followed by [rest]. *)
Lemma parseInt_decimal (n : Z) (rest : string) :
  stopsDigits rest →
  parseInt (numberToString n +:+ rest) = toNumber n.
Proof.
  intros Hstop. unfold parseInt. by rewrite leadingInteger_decimal.
Qed.

(** [parseInt(s, 10)] reads back the decimal rendering of an integer as the
    Number nearest to it, also after leading blanks, and stops at the first
    character after it that is not a digit. For a safe integer [n] (of
    magnitude below 2^53) that Number is [n]: [parseInt(String(n))] is [n],
    and so is [parseInt(" " + String(n) + rest)] when [rest] is empty or
    starts with a non-digit. Beyond the safe integers the result is rounded:
    ['9007199254740993'] reads as 9007199254740992. *)
Theorem parseInt_reads_leading_integer (n : Z) (rest : string) :
  stopsDigits rest →
  (parseInt (numberToString n) = toNumber n ∧
   parseInt (numberToString n +:+ rest) = toNumber n ∧
   parseInt (" " +:+ numberToString n +:+ rest) = toNumber n) ∧
  (safeInteger n →
   parseInt (numberToString n) = Some n ∧
   parseInt (numberToString n +:+ rest) = Some n ∧
   parseInt (" " +:+ numberToString n +:+ rest) = Some n) ∧
  parseInt "9007199254740993" = Some 9007199254740992.
Proof.
  intros Hstop.
  assert (Hall : parseInt (numberToString n) = toNumber n ∧
                 parseInt (numberToString n +:+ rest) = toNumber n ∧
                 parseInt (" " +:+ numberToString n +:+ rest) = toNumber n).
  { split_and!.
    - rewrite <- (append_empty_r (numberToString n)). by apply parseInt_decimal.
    - by apply parseInt_decimal.
    - rewrite <- (parseInt_decimal n rest Hstop). reflexivity. }
  split_and!; [apply Hall..| |by vm_compute].
  intros Hsafe. rewrite <- (toNumber_safe n Hsafe). exact Hall.
Qed.

Lemma parseInt_reads_leading_integer_witness :
  (parseInt (numberToString (-250)) = toNumber (-250) ∧
   parseInt (numberToString (-250) +:+ "ms") = toNumber (-250) ∧
   parseInt (" " +:+ numberToString (-250) +:+ "ms") = toNumber (-250)) ∧
  (safeInteger (-250) →
   parseInt (numberToString (-250)) = Some (-250) ∧
   parseInt (numberToString (-250) +:+ "ms") = Some (-250) ∧
   parseInt (" " +:+ numberToString (-250) +:+ "ms") = Some (-250)) ∧
  parseInt "9007199254740993" = Some 9007199254740992.
Proof.
  apply (parseInt_reads_leading_integer (-250) "ms"). reflexivity.
Defined.

Lemma strOr_nonempty (s fallback : string) : s ≠ "" → strOr s fallback = s.
Proof. intros Hne. unfold strOr. by rewrite decide_False. Qed.

(** X12. How [getBLSConfig] reads its three numeric settings. A variable
    that holds the decimal rendering of an integer gives the Number nearest
    to that integer, and a variable that is unset or empty gives the default
    (3600000 ms, 3 attempts, 1000 ms). For a safe integer (of magnitude
    below 2^53) the Number is the integer itself; beyond, the setting is
    rounded as [parseInt] rounds it. *)
Theorem getBLSConfig_numeric_settings
    (env : gmap string string) (ttl attemptsMax delay : option Z) :
  env !! "BLS_CACHE_TTL_MS" = numberToString <$> ttl ∨
    (ttl = None ∧ env !! "BLS_CACHE_TTL_MS" = Some "") →
  env !! "BLS_RETRY_MAX_ATTEMPTS" = numberToString <$> attemptsMax ∨
    (attemptsMax = None ∧ env !! "BLS_RETRY_MAX_ATTEMPTS" = Some "") →
  env !! "BLS_RETRY_BASE_DELAY_MS" = numberToString <$> delay ∨
    (delay = None ∧ env !! "BLS_RETRY_BASE_DELAY_MS" = Some "") →
  (ttlMs (cfg_cache (getBLSConfig env)) = toNumber (default 3600000 ttl) ∧
   maxAttempts (cfg_retry (getBLSConfig env)) = toNumber (default 3 attemptsMax) ∧
   baseDelayMs (cfg_retry (getBLSConfig env)) = toNumber (default 1000 delay)) ∧
  (safeSetting ttl →
   ttlMs (cfg_cache (getBLSConfig env)) = Some (default 3600000 ttl)) ∧
  (safeSetting attemptsMax →
   maxAttempts (cfg_retry (getBLSConfig env)) = Some (default 3 attemptsMax)) ∧
  (safeSetting delay →
   baseDelayMs (cfg_retry (getBLSConfig env)) = Some (default 1000 delay)).
Proof.
  assert (Hread : ∀ name fallback d (v : option Z),
    parseInt fallback = toNumber d →
    fallback ≠ "" →
    env !! name = numberToString <$> v ∨ (v = None ∧ env !! name = Some "") →
    parseInt (envOr env name fallback) = toNumber (default d v)).
  { intros name fallback d v Hfb Hne Hv. unfold envOr, envOrEmpty.
    destruct Hv as [Hv|[-> Hv]]; rewrite Hv.
    - destruct v as [n|].
      + change (default "" (numberToString <$> Some n)) with (numberToString n).
        rewrite strOr_nonempty by apply numberToString_not_empty.
        rewrite <- (append_empty_r (numberToString n)).
        by apply parseInt_decimal.
      + exact Hfb.
    - exact Hfb. }
  assert (Hsafe : ∀ d (v : option Z),
    safeInteger d → safeSetting v → toNumber (default d v) = Some (default d v)).
  { intros d v Hd Hv. apply toNumber_safe.
    destruct v as [n|]; [by apply Hv|exact Hd]. }
  intros Httl Hmax Hdelay.
  assert (Hnum :
    ttlMs (cfg_cache (getBLSConfig env)) = toNumber (default 3600000 ttl) ∧
    maxAttempts (cfg_retry (getBLSConfig env)) = toNumber (default 3 attemptsMax) ∧
    baseDelayMs (cfg_retry (getBLSConfig env)) = toNumber (default 1000 delay)).
  { unfold getBLSConfig. simpl.
    rewrite (Hread _ _ 3600000 ttl), (Hread _ _ 3 attemptsMax),
      (Hread _ _ 1000 delay); try done; by vm_compute. }
  destruct Hnum as (Hn1 & Hn2 & Hn3).
  split_and!; [done|done|done|..]; intros Hv.
  - rewrite Hn1. apply Hsafe; [unfold safeInteger; lia|done].
  - rewrite Hn2. apply Hsafe; [unfold safeInteger; lia|done].
  - rewrite Hn3. apply Hsafe; [unfold safeInteger; lia|done].
Qed.

Lemma getBLSConfig_numeric_settings_witness :
  (ttlMs (cfg_cache (getBLSConfig tunedEnv)) = toNumber (default 3600000 (Some 5)) ∧
   maxAttempts (cfg_retry (getBLSConfig tunedEnv)) = toNumber (default 3 (Some 7)) ∧
   baseDelayMs (cfg_retry (getBLSConfig tunedEnv)) = toNumber (default 1000 (Some 20))) ∧
  (safeSetting (Some 5) →
   ttlMs (cfg_cache (getBLSConfig tunedEnv)) = Some (default 3600000 (Some 5))) ∧
  (safeSetting (Some 7) →
   maxAttempts (cfg_retry (getBLSConfig tunedEnv)) = Some (default 3 (Some 7))) ∧
  (safeSetting (Some 20) →
   baseDelayMs (cfg_retry (getBLSConfig tunedEnv)) = Some (default 1000 (Some 20))).
Proof.
  apply (getBLSConfig_numeric_settings tunedEnv (Some 5) (Some 7) (Some 20)).
  - left. vm_compute. reflexivity.
  - left. vm_compute. reflexivity.
  - left. vm_compute. reflexivity.
Defined.

(** A TTL written beyond the safe integers comes back rounded to the nearest
    double. *)
Example getBLSConfig_rounds_large_ttl :
  ttlMs (cfg_cache (getBLSConfig {["BLS_CACHE_TTL_MS" := "9007199254740993"]}))
    = Some 9007199254740992.
Proof. by vm_compute. Qed.

(** ** The cache key, read back *)

Lemma allDigits_hasChar c s :
  digitValue c = None → allDigits s = true → hasChar c s = false.
Proof.
  intros Hc. induction s as [|a s IH]; [done|]. simpl.
  intros Hall. apply andb_true_iff in Hall as [Ha Hall].
  apply bool_decide_eq_true in Ha as [d Hd].
  rewrite decide_False by congruence. by apply IH.
Qed.

Lemma yearOrNull_no_underscore y :
  hasChar (Ascii.ascii_of_nat 95) (yearOrNull y) = false.
Proof.
  destruct y as [n|]; [|done]. unfold yearOrNull.
  case_decide; [done|]. unfold numberToString, pretty, pretty_Z.
  destruct n as [|p|p]; [done| |];
    unfold pretty, pretty_positive, pretty, pretty_N;
    rewrite decide_False by done;
    destruct (pretty_N_go_digits (N.pos p)) as [Hall _].
  - by apply allDigits_hasChar.
  - change ("-" +:+ pretty_N_go (N.pos p) "")
      with (String (Ascii.ascii_of_nat 45) (pretty_N_go (N.pos p) "")).
    simpl. by apply allDigits_hasChar.
Qed.

Lemma join_no_underscore (l : list string) :
  Forall keySafeId l → hasChar (Ascii.ascii_of_nat 95) (join "," l) = false.
Proof.
  induction l as [|x l IH]; intros Hl; [done|].
  apply Forall_cons in Hl as [[_ Hx] Hl].
  change (join "," (x :: l)) with (join (String (Ascii.ascii_of_nat 44) "") (x :: l)).
  rewrite join_cons, hasChar_append, Hx. simpl.
  destruct l as [|y l]; [done|]. simpl. by apply IH.
Qed.

Lemma yearOrNull_inj y1 y2 :
  yearOrNull y1 = yearOrNull y2 → keyYear y1 = keyYear y2.
Proof.
  assert (Hnull : ∀ n, n ≠ 0 → numberToString n ≠ "null").
  { intros n _ Heq.
    pose proof (leadingInteger_decimal n "" I) as Hp.
    rewrite append_empty_r, Heq in Hp. discriminate. }
  unfold yearOrNull, keyYear.
  destruct y1 as [n1|], y2 as [n2|]; repeat case_decide; intros Heq;
    first
      [ done
      | exfalso; eapply Hnull; [|exact Heq]; done
      | exfalso; eapply Hnull; [|symmetry; exact Heq]; done
      | unfold numberToString in Heq; by apply (inj pretty) in Heq as -> ].
Qed.

Lemma keyYear_yearOrNull y1 y2 :
  keyYear y1 = keyYear y2 → yearOrNull y1 = yearOrNull y2.
Proof.
  unfold yearOrNull, keyYear.
  destruct y1 as [n1|], y2 as [n2|]; repeat case_decide; congruence.
Qed.

(** X11. What a cache key stands for. For identifiers that are not empty and
    hold neither a comma nor an underscore, two requests get the same key
    exactly when they ask for the same identifiers (in any order, with the
    same multiplicities) and for the same start and end year, where the year
    0 counts as no year. *)
Theorem cache_key_characterisation
    (ids1 ids2 : list string) (s1 e1 s2 e2 : option Z) :
  Forall keySafeId ids1 → Forall keySafeId ids2 →
  (cacheKey ids1 s1 e1 = cacheKey ids2 s2 e2
   ↔ ids1 ≡ₚ ids2 ∧ keyYear s1 = keyYear s2 ∧ keyYear e1 = keyYear e2).
Proof.
  intros H1 H2. split.
  - intros Hkey. unfold cacheKey, cacheKeyOf in Hkey.
    pose (us := Ascii.ascii_of_nat 95).
    change (join "," (jsSort ids1) +:+ String us (yearOrNull s1 +:+ String us (yearOrNull e1))
            = join "," (jsSort ids2) +:+ String us (yearOrNull s2 +:+ String us (yearOrNull e2)))
      in Hkey.
    assert (Hs1 : Forall keySafeId (jsSort ids1)) by (by rewrite jsSort_Permutation).
    assert (Hs2 : Forall keySafeId (jsSort ids2)) by (by rewrite jsSort_Permutation).
    apply split_at_char with (c := us) in Hkey as [Hjoin Hrest];
      [|by apply join_no_underscore|by apply join_no_underscore
       |right; by eexists|right; by eexists].
    injection Hrest as Hrest.
    apply split_at_char with (c := us) in Hrest as [Hy1 Hy2];
      [|apply yearOrNull_no_underscore|apply yearOrNull_no_underscore
       |right; by eexists|right; by eexists].
    injection Hy2 as Hy2.
    split_and!; [|by apply yearOrNull_inj..].
    apply join_plain_inj in Hjoin.
    + by rewrite <- (jsSort_Permutation ids1), Hjoin, jsSort_Permutation.
    + eapply Forall_impl; [exact Hs1|]. by intros ? [? _].
    + eapply Forall_impl; [exact Hs2|]. by intros ? [? _].
  - intros (Hp & Hs & He). unfold cacheKey, cacheKeyOf.
    by rewrite (jsSort_perm _ _ Hp), (keyYear_yearOrNull _ _ Hs),
      (keyYear_yearOrNull _ _ He).
Qed.

Lemma cache_key_characterisation_witness :
  cacheKey ["LNS14000000"; "CUSR0000SA0"] (Some 0) (Some 2023)
  = cacheKey ["CUSR0000SA0"; "LNS14000000"] None (Some 2023)
  ↔ ["LNS14000000"; "CUSR0000SA0"] ≡ₚ ["CUSR0000SA0"; "LNS14000000"]
    ∧ keyYear (Some 0) = keyYear None
    ∧ keyYear (Some 2023) = keyYear (Some 2023).
Proof.
  apply (cache_key_characterisation ["LNS14000000"; "CUSR0000SA0"]
           ["CUSR0000SA0"; "LNS14000000"] (Some 0) (Some 2023) None (Some 2023)).
  - repeat constructor; done.
  - repeat constructor; done.
Defined.

(** ** What one call sends *)

Section Traffic.

Context (E : Env).

(** One [fetchSeriesData]: at most one exchange and at most [maxRetries]
    calls of [fetch], all with the request of the sorted identifiers. *)
Lemma fetchSeriesData_budget l ids startYear endYear ovr w res w' :
  arrays w !! l = Some ids →
  fetchSeriesData E l startYear endYear ovr w = (res, w') →
  let cfg := getConfig (process_env E) ovr in
  let req := requestFor cfg (jsSort ids) startYear endYear in
  ∃ x k, (x ≤ 1)%nat ∧ (k ≤ x * Z.to_nat (maxRetries cfg))%nat ∧
    exchanges w' = exchanges w ++ replicate x req ∧
    attempts w' = attempts w ++ replicate k req.
Proof.
  intros Hl Hrun cfg req. rewrite (fetchSeriesData_run E _ _ _ _ _ _ Hl) in Hrun.
  fold cfg in Hrun.
  destruct (freshEntry cfg _ w) as [d|].
  - injection Hrun as <- <-. exists 0%nat, 0%nat. simpl.
    rewrite !app_nil_r. split_and!; [lia|lia|done|done].
  - unfold missPath in Hrun. fold req in Hrun.
    destruct (fetchWithRetry E req cfg _) as [r0 wf] eqn:Hf.
    apply fetchWithRetry_frame in Hf as (_ & _ & Hx & k & Hk & Hat & _).
    simpl in Hx, Hat.
    assert (Hw : exchanges w' = exchanges wf ∧ attempts w' = attempts wf).
    { destruct r0 as [resp|e]; [|by injection Hrun as <- <-].
      apply interpret_frame in Hrun. destruct res; subst w'; [|done].
      unfold stored. by destruct (enableCache cfg). }
    destruct Hw as [-> ->]. exists 1%nat, k. split_and!; [lia|lia|done|done].
Qed.

Lemma fetchBatches_traffic startYear endYear ovr batches :
  let cfg := getConfig (process_env E) ovr in
  ∀ results w res w',
  fetchBatches E batches startYear endYear ovr results w = (res, w') →
  ∃ xs ats,
    exchanges w' = exchanges w ++ xs ∧
    attempts w' = attempts w ++ ats ∧
    (length xs ≤ length batches)%nat ∧
    (length ats ≤ length batches * Z.to_nat (maxRetries cfg))%nat ∧
    Forall (fun r => ∃ b, b ∈ batches ∧ r = requestFor cfg (jsSort b) startYear endYear)
      (xs ++ ats).
Proof.
  intros cfg. induction batches as [|slice rest IH]; intros results w res w' Hrun.
  - simpl in Hrun. injection Hrun as <- <-. exists [], []. simpl.
    rewrite !app_nil_r. split_and!; [done|done|lia|lia|constructor].
  - simpl in Hrun. unfold allocArray in Hrun. revert Hrun. run.
    pose proof (alloc_lookup w slice) as Hl0.
    destruct (fetchSeriesData E (length (arrays w)) startYear endYear ovr _)
      as [r1 w1] eqn:Hf.
    destruct (fetchSeriesData_budget _ _ _ _ _ _ _ _ Hl0 Hf)
      as (x & k & Hx & Hk & Hex & Hat).
    fold cfg in Hk, Hex, Hat. simpl in Hex, Hat.
    assert (Hk' : (k ≤ Z.to_nat (maxRetries cfg))%nat) by nia.
    set (req := requestFor cfg (jsSort slice) startYear endYear) in *.
    assert (Hmine : Forall (fun r => ∃ b, b ∈ slice :: rest
                      ∧ r = requestFor cfg (jsSort b) startYear endYear)
                      (replicate x req ++ replicate k req)).
    { apply Forall_app; split; apply Forall_replicate;
        exists slice; split; first [apply list_elem_of_here|done]. }
    destruct r1 as [r|e].
    + intros Hrun. apply IH in Hrun as (xs & ats & Hxs & Hats & Hlx & Hla & Hall).
      exists (replicate x req ++ xs), (replicate k req ++ ats).
      rewrite Hxs, Hex, Hats, Hat, <- !app_assoc.
      split_and!; [done|done| | |].
      * rewrite length_app, length_replicate. simpl. lia.
      * rewrite length_app, length_replicate. simpl. nia.
      * apply Forall_app in Hmine as [Hm1 Hm2]. apply Forall_app in Hall as [Ha1 Ha2].
        assert (Hlift : ∀ l0, Forall (fun r => ∃ b, b ∈ rest
                          ∧ r = requestFor cfg (jsSort b) startYear endYear) l0 →
                        Forall (fun r => ∃ b, b ∈ slice :: rest
                          ∧ r = requestFor cfg (jsSort b) startYear endYear) l0).
        { intros l0 Hl0'. eapply Forall_impl; [exact Hl0'|].
          intros r0 (b & Hb & ->). exists b. split; [by apply list_elem_of_further|done]. }
        repeat (apply Forall_app; split); auto.
    + intros [= <- <-]. exists (replicate x req), (replicate k req).
      rewrite !length_replicate. simpl. split_and!; [done|done|lia|nia|done].
Qed.

End Traffic.

Section CallTraffic.

Context (E : Env).

Lemma elem_of_concat (x : string) (b : list string) (bs : list (list string)) :
  x ∈ b → b ∈ bs → x ∈ concat bs.
Proof.
  intros Hx Hb. induction bs as [|b' bs IH]; [by apply elem_of_nil in Hb|].
  simpl. apply elem_of_app. apply elem_of_cons in Hb as [->|Hb]; [by left|].
  right. by apply IH.
Qed.

Lemma plannedBatches_spec cfg ids :
  let max := maxSeriesPerRequest cfg in
  let bs := plannedBatches cfg ids in
  concat bs = ids ∧
  Forall (fun b => (length b ≤ max)%nat) bs ∧
  ((length bs - 1) * max < Nat.max 1 (length ids))%nat.
Proof.
  intros max bs. unfold bs, plannedBatches. fold max.
  destruct (decide (length ids ≤ max)%nat) as [Hle|Hgt].
  - simpl. rewrite app_nil_r. split_and!; [done|by constructor|lia].
  - pose proof (maxSeriesPerRequest_positive cfg) as Hpos. fold max in Hpos.
    destruct (splitFrom_spec ids max Hpos (length ids) 0%nat)
      as (batches & Hsplit & Hcat & Hall & Hk); [lia|].
    unfold split. rewrite Hsplit. simpl. split_and!; [done| |].
    + eapply Forall_impl; [exact Hall|]. simpl. intros; lia.
    + destruct (decide (length batches = 0)%nat) as [->|Hne]; [simpl; lia|].
      destruct (lookup_lt_is_Some_2 batches (length batches - 1)) as [b Hb]; [lia|].
      pose proof (Hk _ _ Hb) as Hbk.
      assert (Hbpos : (0 < length b)%nat).
      { apply list_elem_of_lookup_2 in Hb.
        by apply (proj1 (Forall_forall _ _) Hall) in Hb as [? _]. }
      rewrite Hbk, length_take, length_drop in Hbpos. simpl in Hbpos. lia.
Qed.

(** Every exchange and every call of [fetch] of one [getMultipleSeries] is for
    one of the planned batches, sorted. *)
Lemma getMultipleSeries_trace l ids startYear endYear ovr w res w' :
  let cfg := getConfig (process_env E) ovr in
  arrays w !! l = Some ids →
  getMultipleSeries E l startYear endYear ovr w = (res, w') →
  ∃ xs ats,
    exchanges w' = exchanges w ++ xs ∧
    attempts w' = attempts w ++ ats ∧
    (length xs ≤ length (plannedBatches cfg ids))%nat ∧
    (length ats ≤ length (plannedBatches cfg ids) * Z.to_nat (maxRetries cfg))%nat ∧
    Forall (fun r => ∃ b, b ∈ plannedBatches cfg ids
                         ∧ r = requestFor cfg (jsSort b) startYear endYear)
      (xs ++ ats).
Proof.
  intros cfg Hl Hrun. unfold plannedBatches.
  destruct (decide (length ids ≤ maxSeriesPerRequest cfg)%nat) as [Hle|Hgt].
  - rewrite (getMultipleSeries_within E _ _ _ _ _ _ Hl Hle) in Hrun.
    destruct (fetchSeriesData_budget E _ _ _ _ _ _ _ _ Hl Hrun)
      as (x & k & Hx & Hk & Hex & Hat). fold cfg in Hk, Hex, Hat.
    exists (replicate x (requestFor cfg (jsSort ids) startYear endYear)),
           (replicate k (requestFor cfg (jsSort ids) startYear endYear)).
    rewrite !length_replicate. simpl. split_and!; [done|done|lia|nia|].
    apply Forall_app; split; apply Forall_replicate;
      exists ids; split; first [apply list_elem_of_here|done].
  - rewrite (getMultipleSeries_over E _ _ _ _ _ _ Hl Hgt) in Hrun.
    by apply fetchBatches_traffic in Hrun.
Qed.

(** X14. The budget of one call. [getMultipleSeries] for [n] identifiers
    under the ceiling [max] issues at most [ceil(n / max)] exchanges (one for
    an empty list) and at most that many times [maxRetries] calls of [fetch],
    whatever the provider answers. *)
Theorem call_budget
    (l : loc) (ids : list string) (startYear endYear : option Z)
    (ovr : option PartialConfig) (w w' : World) (res : Result (list BLSSeries)) :
  let cfg := getConfig (process_env E) ovr in
  let max := maxSeriesPerRequest cfg in
  arrays w !! l = Some ids →
  getMultipleSeries E l startYear endYear ovr w = (res, w') →
  ∃ batches : nat,
    ((batches - 1) * max < Nat.max 1 (length ids))%nat ∧
    (length (exchanges w') ≤ length (exchanges w) + batches)%nat ∧
    (length (attempts w')
     ≤ length (attempts w) + batches * Z.to_nat (maxRetries cfg))%nat.
Proof.
  intros cfg max Hl Hrun.
  destruct (getMultipleSeries_trace _ _ _ _ _ _ _ _ Hl Hrun)
    as (xs & ats & Hxs & Hats & Hlx & Hla & _). fold cfg in Hlx, Hla.
  destruct (plannedBatches_spec cfg ids) as (_ & _ & Hb).
  exists (length (plannedBatches cfg ids)).
  rewrite Hxs, Hats, !length_app. split_and!; [done|lia|lia].
Qed.

(** X15. What goes out is always a request the provider accepts: every
    exchange and every call of [fetch] of a [getMultipleSeries] call, over or
    under the ceiling and whatever the outcome, lists no more identifiers
    than the ceiling, in sorted order and from those asked for, and carries
    the year bounds and the credential of the call. *)
Theorem every_request_is_well_formed
    (l : loc) (ids : list string) (startYear endYear : option Z)
    (ovr : option PartialConfig) (w w' : World) (res : Result (list BLSSeries)) :
  let cfg := getConfig (process_env E) ovr in
  arrays w !! l = Some ids →
  getMultipleSeries E l startYear endYear ovr w = (res, w') →
  ∃ xs ats,
    exchanges w' = exchanges w ++ xs ∧
    attempts w' = attempts w ++ ats ∧
    Forall (wellFormedRequest cfg ids startYear endYear) (xs ++ ats).
Proof.
  intros cfg Hl Hrun.
  destruct (getMultipleSeries_trace _ _ _ _ _ _ _ _ Hl Hrun)
    as (xs & ats & Hxs & Hats & _ & _ & Hall). fold cfg in Hall.
  exists xs, ats. split_and!; [done|done|].
  destruct (plannedBatches_spec cfg ids) as (Hcat & Hlen & _).
  eapply Forall_impl; [exact Hall|]. intros r (b & Hb & ->).
  unfold wellFormedRequest. simpl. split_and!; try done.
  - rewrite jsSort_length. by apply (proj1 (Forall_forall _ _) Hlen).
  - apply jsSort_Sorted.
  - intros i Hi. rewrite jsSort_Permutation in Hi. rewrite <- Hcat.
    by apply (elem_of_concat _ b).
Qed.

End CallTraffic.

Section FailFast.

Context (E : Env).

Lemma fetchBatches_throw startYear endYear ovr batches :
  ∀ results w e w',
  fetchBatches E batches startYear endYear ovr results w = (Throw e, w') →
  ∃ completed failing rest rs w1,
    batches = completed ++ failing :: rest ∧
    BatchRun E startYear endYear ovr completed w rs w1 ∧
    fetchSeriesData E (length (arrays w1)) startYear endYear ovr
      (set_arrays (fun h => h ++ [failing]) w1) = (Throw e, w') ∧
    cache w' = cache w1.
Proof.
  induction batches as [|slice rest IH]; intros results w e w' Hrun.
  - simpl in Hrun. discriminate.
  - simpl in Hrun. unfold allocArray in Hrun. revert Hrun. run.
    destruct (fetchSeriesData E (length (arrays w)) startYear endYear ovr _)
      as [[r|e1] w1] eqn:Hf.
    + intros Hrun. apply IH in Hrun
        as (completed & failing & rest' & rs & w2 & -> & Hbr & Hfail & Hc).
      exists (slice :: completed), failing, rest', (r :: rs), w2.
      split_and!; [done|by econstructor|done|done].
    + intros [= <- <-]. exists [], slice, rest, [], w.
      split_and!; [done|constructor|done|].
      exact (fetchSeriesData_cache E _ _ _ _ _ _ _ _ (alloc_lookup w slice) Hf).
Qed.

(** X13. A call over the ceiling stops at the first batch that fails: the
    error of that batch is the error of the call, no request is made for the
    batches after it, and the results of the batches before it stay in the
    cache (the cache after the call is the cache after the last batch that
    succeeded). *)
Theorem batched_call_fails_fast
    (l : loc) (ids : list string) (startYear endYear : option Z)
    (ovr : option PartialConfig) (w w' : World) (e : string) :
  let cfg := getConfig (process_env E) ovr in
  let max := maxSeriesPerRequest cfg in
  arrays w !! l = Some ids →
  (max < length ids)%nat →
  getMultipleSeries E l startYear endYear ovr w = (Throw e, w') →
  ∃ completed failing rest rs w1,
    split ids max = Some (completed ++ failing :: rest) ∧
    BatchRun E startYear endYear ovr completed w rs w1 ∧
    fetchSeriesData E (length (arrays w1)) startYear endYear ovr
      (set_arrays (fun h => h ++ [failing]) w1) = (Throw e, w') ∧
    cache w' = cache w1 ∧
    (length (exchanges w') ≤ length (exchanges w) + length completed + 1)%nat.
Proof.
  intros cfg max Hl Hgt Hrun.
  rewrite (getMultipleSeries_over E _ _ _ _ _ _ Hl) in Hrun by (fold cfg max; lia).
  fold cfg max in Hrun.
  destruct (splitFrom_spec ids max (maxSeriesPerRequest_positive cfg)
              (length ids) 0%nat) as (batches & Hsplit & _); [lia|].
  unfold split in *. rewrite Hsplit in Hrun. simpl in Hrun.
  apply fetchBatches_throw in Hrun
    as (completed & failing & rest & rs & w1 & -> & Hbr & Hfail & Hc).
  exists completed, failing, rest, rs, w1. split_and!; try done.
  assert (Hdone : ∀ bs w0 rs0 w2, BatchRun E startYear endYear ovr bs w0 rs0 w2 →
            (length (exchanges w2) ≤ length (exchanges w0) + length bs)%nat).
  { intros bs w0 rs0 w2 Hb. induction Hb as [|slice rest0 wa r wb rs0 wc Hf _ IH];
      [lia|].
    destruct (fetchSeriesData_budget E _ _ _ _ _ _ _ _ (alloc_lookup wa slice) Hf)
      as (x & k & Hx & _ & Hex & _). simpl in Hex.
    rewrite Hex, length_app, length_replicate in IH. simpl. lia. }
  apply Hdone in Hbr.
  destruct (fetchSeriesData_budget E _ _ _ _ _ _ _ _ (alloc_lookup w1 failing) Hfail)
    as (x & k & Hx & _ & Hex & _). simpl in Hex.
  rewrite Hex, length_app, length_replicate. lia.
Qed.

End FailFast.

(** ** The service, on a mapped career *)

Section ServiceRun.

Context (E : Env) (table : list CareerBlsMapping).

Lemma wantedSeriesOf_length mapping : (length (wantedSeriesOf mapping) ≤ 3)%nat.
Proof.
  unfold wantedSeriesOf.
  etrans; [apply List.filter_length_le|].
  destruct (seriesIds mapping) as [[c|] [u|] [g|]]; simpl; lia.
Qed.

(** X16. For a career with a mapping that names at least one series, with
    enrichment enabled, [getJobSpecificEconomicData] asks [getMultipleSeries]
    once for the (at most three) series of the mapping, for the years from
    five before the current year to the current year, with no overrides. What
    that call throws, the service throws; what it returns becomes one
    indicator per series, in the same order, with the identifier and the data
    points of the series unchanged. At most one exchange is issued. *)
Theorem service_on_mapped_career
    (id : string) (mapping : CareerBlsMapping) (w : World) :
  let year := getFullYear E (clock w) in
  let wanted := wantedSeriesOf mapping in
  let w0 := set_arrays (fun h => h ++ [wanted]) w in
  let call := getMultipleSeries E (length (arrays w))
                (Some (year - 5)) (Some year) None w0 in
  enabled (getBLSConfig (process_env E)) = true →
  findMapping table id = Some mapping →
  wanted ≠ [] →
  (length wanted ≤ 3)%nat ∧
  (length (exchanges call.2) ≤ length (exchanges w) + 1)%nat ∧
  match call.1 with
  | Throw e => getJobSpecificEconomicDataIn E table id w = (Throw e, call.2)
  | Ok seriesList =>
      ∃ indicators,
        getJobSpecificEconomicDataIn E table id w = (Ok indicators, call.2) ∧
        ind_seriesId <$> indicators = seriesID <$> seriesList ∧
        ind_data <$> indicators = data <$> seriesList ∧
        name <$> indicators
          = (fun s => getSeriesFriendlyName (seriesID s) mapping) <$> seriesList
  end.
Proof.
  intros year wanted w0 call Hen Hmap Hne.
  pose proof (wantedSeriesOf_length mapping) as Hlen. fold wanted in Hlen.
  split_and!; [done| |].
  - destruct call as [res w'] eqn:Hcall. unfold call in Hcall.
    pose proof (alloc_lookup w wanted) as Hl.
    rewrite getMultipleSeries_within with (ids := wanted) in Hcall; [|done|].
    + destruct (fetchSeriesData_budget E _ _ _ _ _ _ _ _ Hl Hcall)
        as (x & k & Hx & _ & Hex & _). simpl in *.
      rewrite Hex, length_app, length_replicate. lia.
    + pose proof (maxSeriesPerRequest_positive (getConfig (process_env E) None)).
      unfold maxSeriesPerRequest in *. case_decide; lia.
  - unfold getJobSpecificEconomicDataIn. rewrite Hen, Hmap. simpl.
    unfold dateNow, allocArray. run. fold year wanted.
    rewrite decide_False by (by destruct wanted).
    fold w0. fold call. destruct call as [[sl|e] w']; simpl; [|done].
    eexists. split; [reflexivity|].
    rewrite <- !list_fmap_compose. done.
Qed.

End ServiceRun.

(** X18. Without an override of [apiKey], what [isApiKeyConfigured] reports
    is what the calls do: when it is true the ceiling is 50 series and every
    request carries the key of the environment as [registrationkey]; when it
    is false (the variable unset or empty) the ceiling is 25 and no request
    carries a key. *)
Theorem credential_report_matches_requests
    (E : Env) (ids : list string) (startYear endYear : option Z) :
  let cfg := getConfig (process_env E) None in
  if isApiKeyConfigured E then
    maxSeriesPerRequest cfg = 50%nat ∧
    registrationkey (requestFor cfg ids startYear endYear)
      = process_env E !! "BLS_API_KEY"
  else
    maxSeriesPerRequest cfg = 25%nat ∧
    registrationkey (requestFor cfg ids startYear endYear) = None.
Proof.
  unfold isApiKeyConfigured, maxSeriesPerRequest, requestFor, getConfig, envOrEmpty.
  simpl. destruct (process_env E !! "BLS_API_KEY") as [k|] eqn:Hk; simpl.
  - destruct (decide (k = "")) as [->|Hne].
    + by cbv.
    + case_bool_decide as Hb; [done|by destruct Hb].
  - by cbv.
Qed.

(** ** Concrete runs of the further properties *)

Lemma fetchWithRetry_returns_first_answer_witness :
  let E := throttledOnce in
  let cfg := getConfig (process_env E) twoRetries in
  let req := requestFor cfg ["CUSR0000SA0"] (Some 2023) (Some 2023) in
  let w := freshWorld [] 0 in
  ∃ w',
    fetchWithRetry E req cfg w = (Ok mockBLSResponse, w') ∧
    attempts w' = attempts w ++ replicate 2 req ∧
    sleeps w' = sleeps w ++ backoffDelays cfg 0 1 ∧
    exchanges w' = exchanges w ++ [req] ∧
    arrays w' = arrays w ∧ cache w' = cache w.
Proof.
  intros E cfg req w.
  apply (fetchWithRetry_returns_first_answer E req cfg w mockBLSResponse 1).
  - vm_compute. reflexivity.
  - vm_compute. repeat constructor.
  - reflexivity.
  - discriminate.
Defined.

Lemma exhausted_retries_total_wait_witness :
  let E := throttlingProvider in
  let cfg := getConfig (process_env E) twoRetries in
  let req := requestFor cfg ["CUSR0000SA0"] (Some 2023) (Some 2023) in
  let w := freshWorld [] 0 in
  let run := fetchWithRetry E req cfg w in
  let n := Z.to_nat (maxRetries cfg) in
  run.1 = Throw (retriesExhausted cfg
                   (lastThrown None (outcomesAt E (length (attempts w)) n req))) ∧
  sleeps run.2 = sleeps w ++ backoffDelays cfg 0 n ∧
  length (backoffDelays cfg 0 n) = n ∧
  (∀ i, (i < n)%nat →
        backoffDelays cfg 0 n !! i = Some (retryDelay cfg * 2 ^ Z.of_nat i)) ∧
  sumZ (backoffDelays cfg 0 n) = retryDelay cfg * (2 ^ Z.of_nat n - 1).
Proof.
  intros E cfg req w run n.
  apply (exhausted_retries_total_wait E req cfg w run.2 run.1).
  - vm_compute. repeat constructor.
  - vm_compute. reflexivity.
Defined.

Lemma clearCache_forces_refetch_witness :
  let E := echoProvider in
  let cfg := getConfig (process_env E) None in
  let w := (getMultipleSeries E 0%nat (Some 2023) (Some 2023) None
              (freshWorld [["B"; "A"]] 0)).2 in
  let cleared := (clearCache w).2 in
  getCacheSize cleared = (Ok 0%nat, cleared) ∧
  exchanges ((getMultipleSeries E 0%nat (Some 2023) (Some 2023) None cleared).2)
  = exchanges w ++ [requestFor cfg (jsSort ["A"; "B"]) (Some 2023) (Some 2023)].
Proof.
  intros E cfg w cleared.
  apply (clearCache_forces_refetch E 0%nat ["A"; "B"] (Some 2023) (Some 2023) None w).
  - vm_compute. reflexivity.
  - vm_compute. lia.
Defined.

Lemma call_touches_only_its_key_witness :
  let E := echoProvider in
  let ids := ["B"; "A"] in
  let key := cacheKey ids (Some 2023) (Some 2023) in
  let w := freshWorld [ids] 0 in
  let run := getMultipleSeries E 0%nat (Some 2023) (Some 2023) None w in
  (∀ k, k ≠ key → cache run.2 !! k = cache w !! k) ∧
  (size (cache run.2) = size (cache w)
   ∨ (cache w !! key = None ∧ is_Some (cache run.2 !! key) ∧
      size (cache run.2) = S (size (cache w)))) ∧
  (is_Some (cache w !! key) → size (cache run.2) = size (cache w)).
Proof.
  intros E ids key w run.
  apply (call_touches_only_its_key E 0%nat ids (Some 2023) (Some 2023) None
           w run.2 run.1).
  - reflexivity.
  - vm_compute. lia.
  - vm_compute. reflexivity.
Defined.

Lemma disabled_cache_is_bypassed_witness :
  let E := echoProvider in
  let cfg := getConfig (process_env E) cacheOff in
  let w := (getMultipleSeries E 0%nat (Some 2023) (Some 2023) None
              (freshWorld [["B"; "A"]] 0)).2 in
  let run := getMultipleSeries E 0%nat (Some 2023) (Some 2023) cacheOff w in
  cache run.2 = cache w ∧
  exchanges run.2
  = exchanges w ++ [requestFor cfg (jsSort ["A"; "B"]) (Some 2023) (Some 2023)].
Proof.
  intros E cfg w run.
  apply (disabled_cache_is_bypassed E 0%nat ["A"; "B"] (Some 2023) (Some 2023)
           cacheOff w run.2 run.1).
  - reflexivity.
  - vm_compute. reflexivity.
  - vm_compute. lia.
  - vm_compute. reflexivity.
Defined.

Lemma failed_call_leaves_cache_unchanged_witness :
  let E := serverError in
  let w := freshWorld [["CUSR0000SA0"]] 0 in
  let run := getMultipleSeries E 0%nat (Some 2023) (Some 2023) None w in
  cache run.2 = cache w ∧
  freshEntry (getConfig (process_env E) None)
    (cacheKey ["CUSR0000SA0"] (Some 2023) (Some 2023)) w = None.
Proof.
  intros E w run.
  apply (failed_call_leaves_cache_unchanged E 0%nat ["CUSR0000SA0"]
           (Some 2023) (Some 2023) None w run.2
           "BLS API error: 500 Internal Server Error").
  - reflexivity.
  - vm_compute. lia.
  - vm_compute. reflexivity.
Defined.

Lemma http_error_is_thrown_witness :
  let E := serverError in
  let cfg := getConfig (process_env E) None in
  let w := freshWorld [["CUSR0000SA0"]] 0 in
  let w0 := set_arrays (fun h => <[0%nat := jsSort ["CUSR0000SA0"]]> h) w in
  let wf := (fetchWithRetry E
               (requestFor cfg (jsSort ["CUSR0000SA0"]) (Some 2023) (Some 2023))
               cfg w0).2 in
  getMultipleSeries E 0%nat (Some 2023) (Some 2023) None w
  = (Throw ("BLS API error: " +:+ numberToString 500
              +:+ " " +:+ "Internal Server Error"), wf) ∧
  cache wf = cache w.
Proof.
  intros E cfg w w0 wf.
  apply (http_error_is_thrown E 0%nat ["CUSR0000SA0"] (Some 2023) (Some 2023)
           None w wf
           (mkResponse 500 false "Internal Server Error" (Throw "no body"))).
  - reflexivity.
  - vm_compute. lia.
  - reflexivity.
  - vm_compute. reflexivity.
  - reflexivity.
Defined.

Lemma api_error_is_thrown_witness :
  let E := rejectingProvider in
  let cfg := getConfig (process_env E) None in
  let w := freshWorld [["INVALID"]] 0 in
  let w0 := set_arrays (fun h => <[0%nat := jsSort ["INVALID"]]> h) w in
  let wf := (fetchWithRetry E
               (requestFor cfg (jsSort ["INVALID"]) (Some 2023) (Some 2023))
               cfg w0).2 in
  getMultipleSeries E 0%nat (Some 2023) (Some 2023) None w
  = (Throw ("BLS API error: " +:+
            strOr (join "; " ["Invalid series ID"]) "Unknown BLS API error"), wf) ∧
  cache wf = cache w.
Proof.
  intros E cfg w w0 wf.
  apply (api_error_is_thrown E 0%nat ["INVALID"] (Some 2023) (Some 2023)
           None w wf mockErrorResponse
           (mkBLSApiResponse "REQUEST_FAILED" 10 (Some ["Invalid series ID"]) None)).
  - reflexivity.
  - vm_compute. lia.
  - reflexivity.
  - vm_compute. reflexivity.
  - reflexivity.
  - reflexivity.
  - discriminate.
Defined.

Lemma year_zero_shares_the_entry_of_no_year_witness :
  let E := echoProvider in
  let cfg := getConfig (process_env E) None in
  let ids := ["B"; "A"] in
  let w := freshWorld [ids] 0 in
  let r := [mkBLSSeries "A" []; mkBLSSeries "B" []] in
  let w1 := (getMultipleSeries E 0%nat None (Some 2023) None w).2 in
  let w2 := set_clock (fun t => t + 1) w1 in
  cacheKey ["A"; "B"] (Some 0) (Some 2023) = cacheKey ids None (Some 2023) ∧
  getMultipleSeries E 0%nat (Some 0) (Some 2023) None w2
  = (Ok r, set_arrays (fun h => <[0%nat := jsSort ["A"; "B"]]> h) w2) ∧
  requestFor cfg (jsSort ["A"; "B"]) (Some 0) (Some 2023)
  ≠ requestFor cfg (jsSort ids) None (Some 2023).
Proof.
  intros E cfg ids w r w1 w2.
  apply (year_zero_shares_the_entry_of_no_year E 0%nat ids (Some 2023) None
           w w1 r 0%nat ["A"; "B"] w2).
  - reflexivity.
  - reflexivity.
  - vm_compute. lia.
  - reflexivity.
  - vm_compute. reflexivity.
  - vm_compute. reflexivity.
  - apply perm_swap.
  - reflexivity.
  - vm_compute. reflexivity.
Defined.

Lemma getSeries_repeat_is_cached_witness :
  let E := cpiOnlyProvider in
  let w := freshWorld [] 0 in
  let w1 := (getSeries E "UNKNOWN_ID" (Some 2023) (Some 2023) None w).2 in
  let w2 := set_clock (fun t => t + 1) w1 in
  ∃ w3,
    getSeries E "UNKNOWN_ID" (Some 2023) (Some 2023) None w2 = (Ok None, w3) ∧
    exchanges w3 = exchanges w2 ∧ attempts w3 = attempts w2 ∧
    cache w3 = cache w2 ∧
    length (exchanges w1) = S (length (exchanges w)).
Proof.
  intros E w w1 w2.
  apply (getSeries_repeat_is_cached E "UNKNOWN_ID" (Some 2023) (Some 2023) None
           w w1 w2 None).
  - reflexivity.
  - reflexivity.
  - vm_compute. reflexivity.
  - reflexivity.
  - vm_compute. reflexivity.
Defined.

Lemma batched_call_fails_fast_witness :
  let E := failsAfterFirst in
  let ids := someIds 60 in
  let w := freshWorld [ids] 0 in
  let w' := (getMultipleSeries E 0%nat (Some 2023) (Some 2023) None w).2 in
  ∃ completed failing rest rs w1,
    split ids (maxSeriesPerRequest (getConfig (process_env E) None))
      = Some (completed ++ failing :: rest) ∧
    BatchRun E (Some 2023) (Some 2023) None completed w rs w1 ∧
    fetchSeriesData E (length (arrays w1)) (Some 2023) (Some 2023) None
      (set_arrays (fun h => h ++ [failing]) w1)
      = (Throw "BLS API error: 500 Internal Server Error", w') ∧
    cache w' = cache w1 ∧
    (length (exchanges w') ≤ length (exchanges w) + length completed + 1)%nat.
Proof.
  intros E ids w w'.
  apply (batched_call_fails_fast E 0%nat ids (Some 2023) (Some 2023) None w w'
           "BLS API error: 500 Internal Server Error").
  - reflexivity.
  - vm_compute. lia.
  - vm_compute. reflexivity.
Defined.

(** That run, spelled out: two exchanges for three batches, and the first
    batch left in the cache. *)
Example batched_failure_leaves_first_batch_cached :
  let run := getMultipleSeries failsAfterFirst 0%nat (Some 2023) (Some 2023) None
               (freshWorld [someIds 60] 0) in
  run.1 = Throw "BLS API error: 500 Internal Server Error" ∧
  (length ∘ seriesid) <$> exchanges run.2 = [25; 25]%nat ∧
  size (cache run.2) = 1%nat ∧
  is_Some (cache run.2 !! cacheKey (take 25 (someIds 60)) (Some 2023) (Some 2023)).
Proof.
  vm_compute. split_and!; try reflexivity. eexists. reflexivity.
Qed.

Lemma call_budget_witness :
  let E := echoProvider in
  let cfg := getConfig (process_env E) None in
  let w := freshWorld [someIds 60] 0 in
  let run := getMultipleSeries E 0%nat (Some 2023) (Some 2023) None w in
  ∃ batches : nat,
    ((batches - 1) * maxSeriesPerRequest cfg < Nat.max 1 (length (someIds 60)))%nat ∧
    (length (exchanges run.2) ≤ length (exchanges w) + batches)%nat ∧
    (length (attempts run.2)
     ≤ length (attempts w) + batches * Z.to_nat (maxRetries cfg))%nat.
Proof.
  intros E cfg w run.
  apply (call_budget E 0%nat (someIds 60) (Some 2023) (Some 2023) None
           w run.2 run.1).
  - reflexivity.
  - vm_compute. reflexivity.
Defined.

Lemma every_request_is_well_formed_witness :
  let E := echoProvider in
  let cfg := getConfig (process_env E) None in
  let w := freshWorld [someIds 60] 0 in
  let run := getMultipleSeries E 0%nat (Some 2023) (Some 2023) None w in
  ∃ xs ats,
    exchanges run.2 = exchanges w ++ xs ∧
    attempts run.2 = attempts w ++ ats ∧
    Forall (wellFormedRequest cfg (someIds 60) (Some 2023) (Some 2023)) (xs ++ ats).
Proof.
  intros E cfg w run.
  apply (every_request_is_well_formed E 0%nat (someIds 60) (Some 2023) (Some 2023)
           None w run.2 run.1).
  - reflexivity.
  - vm_compute. reflexivity.
Defined.

Lemma service_on_mapped_career_witness :
  let E := echoProvider in
  let mapping := mkCareerBlsMapping "rn-001"
    (mkMappingSeriesIds (Some "CUSR0000SA0") (Some "LNS14000000")
       (Some "CES0500000003")) in
  let w := freshWorld [] 0 in
  let year := getFullYear E (clock w) in
  let wanted := wantedSeriesOf mapping in
  let w0 := set_arrays (fun h => h ++ [wanted]) w in
  let call := getMultipleSeries E (length (arrays w))
                (Some (year - 5)) (Some year) None w0 in
  (length wanted ≤ 3)%nat ∧
  (length (exchanges call.2) ≤ length (exchanges w) + 1)%nat ∧
  match call.1 with
  | Throw e =>
      getJobSpecificEconomicDataIn E CAREER_BLS_MAPPINGS "rn-001" w = (Throw e, call.2)
  | Ok seriesList =>
      ∃ indicators,
        getJobSpecificEconomicDataIn E CAREER_BLS_MAPPINGS "rn-001" w
          = (Ok indicators, call.2) ∧
        ind_seriesId <$> indicators = seriesID <$> seriesList ∧
        ind_data <$> indicators = data <$> seriesList ∧
        name <$> indicators
          = (fun s => getSeriesFriendlyName (seriesID s) mapping) <$> seriesList
  end.
Proof.
  intros E mapping w year wanted w0 call.
  apply (service_on_mapped_career E CAREER_BLS_MAPPINGS "rn-001" mapping w).
  - reflexivity.
  - reflexivity.
  - discriminate.
Defined.

(** The three indicators of a mapped career against the echoing provider, in
    the order of the sorted request, each named by its role. *)
Example registered_nurse_indicators :
  name <$> default [] (match (getJobSpecificEconomicData echoProvider "rn-001"
                                (freshWorld [] 0)).1 with
                       | Ok l => Some l
                       | Throw _ => None
                       end)
  = ["Average Hourly Earnings"; "Consumer Price Index (CPI)"; "Unemployment Rate"].
Proof. vm_compute. reflexivity. Qed.

(** ** Edges *)

Section Edges.

Context (E : Env).

(** X20. With [maxRetries] zero or negative the loop of [fetchWithRetry] is
    never entered: a call that is not served from the cache fails at once
    with "... after <maxRetries> attempts: Unknown error", without any call
    of [fetch], any sleep or any change of the cache. *)
Theorem no_attempt_without_retries
    (l : loc) (ids : list string) (startYear endYear : option Z)
    (ovr : option PartialConfig) (w : World) :
  let cfg := getConfig (process_env E) ovr in
  arrays w !! l = Some ids →
  (length ids ≤ maxSeriesPerRequest cfg)%nat →
  freshEntry cfg (cacheKey ids startYear endYear) w = None →
  maxRetries cfg ≤ 0 →
  ∃ w',
    getMultipleSeries E l startYear endYear ovr w
    = (Throw ("BLS API request failed after " +:+ numberToString (maxRetries cfg)
                +:+ " attempts: Unknown error"), w') ∧
    attempts w' = attempts w ∧ sleeps w' = sleeps w ∧ cache w' = cache w.
Proof.
  intros cfg Hl Hle Hfresh Hmax.
  rewrite (getMultipleSeries_within E _ _ _ _ _ _ Hl Hle).
  rewrite (fetchSeriesData_run E _ _ _ _ _ _ Hl). fold cfg. rewrite Hfresh.
  unfold missPath, fetchWithRetry. run.
  replace (Z.to_nat (maxRetries cfg)) with 0%nat by lia. simpl.
  eexists. split; [reflexivity|]. done.
Qed.

(** X21. An empty id list is not short-cut: [getMultipleSeries([])] that is
    not served from the cache sends one request with an empty [seriesid]
    list to the provider. *)
Theorem empty_list_is_still_requested
    (l : loc) (startYear endYear : option Z)
    (ovr : option PartialConfig) (w w' : World) (res : Result (list BLSSeries)) :
  let cfg := getConfig (process_env E) ovr in
  arrays w !! l = Some [] →
  freshEntry cfg (cacheKey [] startYear endYear) w = None →
  getMultipleSeries E l startYear endYear ovr w = (res, w') →
  ∃ req,
    exchanges w' = exchanges w ++ [req] ∧ seriesid req = [] ∧
    startyear req = numberToString <$> startYear ∧
    endyear req = numberToString <$> endYear.
Proof.
  intros cfg Hl Hfresh Hrun.
  apply getMultipleSeries_missed with (ids := []) in Hrun as [Hx _];
    [|done|simpl; lia|done].
  eexists. split; [exact Hx|]. done.
Qed.

End Edges.

(** X19. The mapper answers with the first mapping of the table that has the
    career id asked for, and with [null] exactly when no mapping has it. *)
Theorem findMapping_first_match (table : list CareerBlsMapping) (id : string) :
  match findMapping table id with
  | Some mapping =>
      ∃ before after,
        table = before ++ mapping :: after ∧
        careerId mapping = id ∧
        Forall (fun m => careerId m ≠ id) before
  | None => Forall (fun m => careerId m ≠ id) table
  end.
Proof.
  unfold findMapping. induction table as [|m table IH]; simpl; [constructor|].
  case_bool_decide as Hm.
  - exists [], table. split_and!; [done|done|constructor].
  - destruct (List.find _ table) as [found|].
    + destruct IH as (before & after & -> & Hid & Hbefore).
      exists (m :: before), after. split_and!; [done|done|by constructor].
    + by constructor.
Qed.

Lemma no_attempt_without_retries_witness :
  let E := echoProvider in
  let ovr := Some (mkPartialConfig None None None None (Some 0) None) in
  let cfg := getConfig (process_env E) ovr in
  let w := freshWorld [["CUSR0000SA0"]] 0 in
  ∃ w',
    getMultipleSeries E 0%nat (Some 2023) (Some 2023) ovr w
    = (Throw ("BLS API request failed after " +:+ numberToString (maxRetries cfg)
                +:+ " attempts: Unknown error"), w') ∧
    attempts w' = attempts w ∧ sleeps w' = sleeps w ∧ cache w' = cache w.
Proof.
  intros E ovr cfg w.
  apply (no_attempt_without_retries E 0%nat ["CUSR0000SA0"] (Some 2023) (Some 2023)
           ovr w).
  - reflexivity.
  - vm_compute. lia.
  - reflexivity.
  - vm_compute. discriminate.
Defined.

Lemma empty_list_is_still_requested_witness :
  let E := echoProvider in
  let w := freshWorld [[]] 0 in
  let run := getMultipleSeries E 0%nat None None None w in
  ∃ req,
    exchanges run.2 = exchanges w ++ [req] ∧ seriesid req = [] ∧
    startyear req = numberToString <$> None ∧
    endyear req = numberToString <$> None.
Proof.
  intros E w run.
  apply (empty_list_is_still_requested E 0%nat None None None w run.2 run.1).
  - reflexivity.
  - reflexivity.
  - vm_compute. reflexivity.
Defined.
